(** * DistroAV: the NDI vertical output controller (src/vertical-output.cpp)

    A shallow embedding of the vertical output controller and of the part
    of libobs it talks to, followed by the properties of its lifecycle
    (init / start / stop / deinit / is_supported).

    The controller is a handful of C++ functions over one global struct,
    [vctx].  They are embedded as computations in a state monad over a
    [world]: the global struct, the shared plugin configuration, and the
    libobs objects the controller can observe.  Every call into libobs is
    appended to a trace, with its arguments and its result; every
    [obs_log] line goes to a separate log.

    Layout: host objects and the environment; the state and its monad;
    libobs; the controller, function by function as in the source; runs of
    calls; the vocabulary of the properties; concrete hosts; lemmas; the
    claims C1 to C10; the claims at concrete hosts.

    Not modelled: the reference counts of the two local parameter blocks
    ([obs_data_release], [calldata_free]), which never leave the function
    that builds them, and the text substitution of [obs_log], whose format
    string and arguments are recorded as they are passed. *)

From stdpp Require Import gmap strings list fin_maps.

Set Default Proof Using "Type".

(** ** Handles and host objects *)

(** [video_t *], [audio_t *] and [obs_output_t *] are opaque to the
    controller; a non-null pointer is a number, a nullable pointer an
    [option]. *)
Definition video_t := nat.
Definition audio_t := nat.
Definition obs_output_t := nat.

(** The two signal callbacks this file registers. *)
Inductive callback := on_vertical_output_started | on_vertical_output_stopped.

Global Instance callback_eq_dec : EqDecision callback.
Proof. solve_decision. Defined.

(** [obs_data_t] settings: a string-keyed dictionary of strings and
    booleans.  The controller only ever builds one locally, hands it to
    [obs_output_create] and drops its reference, so it is a value. *)
Inductive obs_data_item := DataString (s : string) | DataBool (b : bool).

Definition obs_data_create : gmap string obs_data_item := ∅.
Definition obs_data_set_string (d : gmap string obs_data_item) (k v : string)
  : gmap string obs_data_item := <[k := DataString v]> d.
Definition obs_data_set_bool (d : gmap string obs_data_item) (k : string) (b : bool)
  : gmap string obs_data_item := <[k := DataBool b]> d.

(** [calldata_t]: the parameter block of a proc handler call. *)
Inductive calldata_item := CdInt (z : Z) | CdPtr (p : option video_t).

Definition calldata_init : list (string * calldata_item) := [].
Definition calldata_set_int (cd : list (string * calldata_item)) (k : string) (z : Z)
  : list (string * calldata_item) := cd ++ [(k, CdInt z)].

(** [calldata_ptr]: the pointer stored under [k], null when there is none. *)
Fixpoint calldata_ptr (cd : list (string * calldata_item)) (k : string) : option video_t :=
  match cd with
  | [] => None
  | (k', CdPtr p) :: rest => if String.eqb k' k then p else calldata_ptr rest k
  | _ :: rest => calldata_ptr rest k
  end.

(** A canvas as [obs_frontend_get_canvases] lists it: what
    [obs_canvas_get_name], [obs_canvas_get_ref] and [obs_canvas_get_video]
    answer for it (each of the three may answer null). *)
Record obs_canvas := {
  canvas_id : nat;
  canvas_name : option string;
  canvas_ref : bool;
  canvas_video : option video_t
}.

(** An output object inside libobs, as far as the controller can affect
    it: its creation arguments, the media bound by [obs_output_set_media],
    whether it is active, the message [obs_output_get_last_error] reports,
    the connected signal callbacks, and whether the controller's reference
    has been released. *)
Record obs_output := {
  out_id : string;
  out_name : string;
  out_settings : gmap string obs_data_item;
  out_video : option video_t;
  out_audio : option audio_t;
  out_active : bool;
  out_last_error : option string;
  out_signals : list (string * callback);
  out_released : bool
}.

Definition out_set_media (v : option video_t) (a : option audio_t) (o : obs_output) :=
  {| out_id := out_id o; out_name := out_name o; out_settings := out_settings o;
     out_video := v; out_audio := a; out_active := out_active o;
     out_last_error := out_last_error o; out_signals := out_signals o;
     out_released := out_released o |}.

Definition out_set_active (b : bool) (o : obs_output) :=
  {| out_id := out_id o; out_name := out_name o; out_settings := out_settings o;
     out_video := out_video o; out_audio := out_audio o; out_active := b;
     out_last_error := out_last_error o; out_signals := out_signals o;
     out_released := out_released o |}.

Definition out_set_last_error (e : option string) (o : obs_output) :=
  {| out_id := out_id o; out_name := out_name o; out_settings := out_settings o;
     out_video := out_video o; out_audio := out_audio o; out_active := out_active o;
     out_last_error := e; out_signals := out_signals o;
     out_released := out_released o |}.

Definition out_set_signals (l : list (string * callback)) (o : obs_output) :=
  {| out_id := out_id o; out_name := out_name o; out_settings := out_settings o;
     out_video := out_video o; out_audio := out_audio o; out_active := out_active o;
     out_last_error := out_last_error o; out_signals := l;
     out_released := out_released o |}.

Definition out_set_released (o : obs_output) :=
  {| out_id := out_id o; out_name := out_name o; out_settings := out_settings o;
     out_video := out_video o; out_audio := out_audio o; out_active := out_active o;
     out_last_error := out_last_error o; out_signals := out_signals o;
     out_released := true |}.

(** ** What the host answers

    Everything libobs decides on its own is read from an environment, one
    answer per query: the [n]-th query of the run gets the answer at [n].
    Any history of answers is some environment. *)

(** Outcome of [obs_output_start]: started, or refused with the message
    (possibly none) the output left behind. *)
Inductive start_outcome := StartOk | StartRefused (msg : option string).

Record Env := {
  (** compile-time switch of the canvas tier *)
  HAVE_OBS_CANVAS_API : bool;
  (** [obs_get_proc_handler()] is non-null *)
  env_proc_handler : nat -> bool;
  (** [proc_handler_call] of the named proc: [None] when no such proc is
      registered (the call is not dispatched), otherwise the pointer the
      proc stores under "video" *)
  env_proc_call : nat -> string -> option (option video_t);
  (** [obs_frontend_get_canvases] *)
  env_canvases : nat -> list obs_canvas;
  (** [obs_get_video()] and [obs_get_audio()]: the main mix of the running
      host, which libobs documents as the context's handlers (non-null) *)
  env_video : nat -> video_t;
  env_audio : nat -> audio_t;
  (** [obs_output_create] succeeds *)
  env_output_create : nat -> bool;
  env_output_start : nat -> start_outcome
}.

(** ** The controller's state *)

(** [struct vertical_output_context]. *)
Record vertical_output_context := {
  is_running : bool;
  ndi_name : string;
  ndi_groups : string;
  last_error : string;
  output : option obs_output_t
}.

(** [static struct vertical_output_context vctx = {0}]. *)
Definition vctx0 : vertical_output_context :=
  {| is_running := false; ndi_name := ""; ndi_groups := ""; last_error := "";
     output := None |}.

(** The fields of [Config::Current()] this file uses. *)
Record Config := {
  VerticalOutputEnabled : bool;
  VerticalOutputName : string;
  VerticalOutputGroups : string
}.

Inductive log_level := LOG_ERROR | LOG_INFO | LOG_DEBUG.

(** Calls into libobs, with their arguments and what they returned. *)
Inductive event :=
| EvGetProcHandler (present : bool)
| EvProcCall (name : string) (cd : list (string * calldata_item)) (called : bool)
| EvGetCanvases (n : nat)
| EvCanvasGetName (c : nat)
| EvCanvasGetRef (c : nat) (ok : bool)
| EvCanvasListFree
| EvCanvasGetVideo (c : nat) (v : option video_t)
| EvCanvasRelease (c : nat)
| EvGetVideo (v : video_t)
| EvGetAudio (a : audio_t)
| EvOutputCreate (id name : string) (settings : gmap string obs_data_item)
    (res : option obs_output_t)
| EvOutputSetMedia (o : option obs_output_t) (v : option video_t) (a : option audio_t)
| EvOutputStart (o : option obs_output_t) (ok : bool)
| EvOutputStop (o : option obs_output_t)
| EvOutputGetLastError (o : option obs_output_t) (msg : option string)
| EvOutputRelease (o : option obs_output_t)
| EvGetSignalHandler (o : option obs_output_t)
| EvSignalConnect (o : option obs_output_t) (signal : string) (cb : callback)
| EvSignalDisconnect (o : option obs_output_t) (signal : string) (cb : callback).

Record world := {
  vctx : vertical_output_context;
  config : Config;
  outputs : gmap nat obs_output;
  next_output : nat;
  tick : nat;
  trace : list event;
  log : list (log_level * string * list string)
}.

(** The state at module load: [vctx] zeroed, no output created yet. *)
Definition world0 (c : Config) : world :=
  {| vctx := vctx0; config := c; outputs := ∅; next_output := 0; tick := 0;
     trace := []; log := [] |}.

(** A world with its log dropped: two worlds that differ in their log
    lines only have the same [silent] image. *)
Definition silent (w : world) : world :=
  {| vctx := vctx w; config := config w; outputs := outputs w;
     next_output := next_output w; tick := tick w; trace := trace w; log := [] |}.

(** ** The state monad *)

Definition M (A : Type) : Type := world -> A * world.

Definition ret {A} (a : A) : M A := fun w => (a, w).
Definition bind {A B} (m : M A) (k : A -> M B) : M B :=
  fun w => let (a, w') := m w in k a w'.

Declare Scope vo_scope.
Delimit Scope vo_scope with vo.
Notation "x <- m ;; k" := (bind m (fun x => k))
  (at level 100, m at next level, right associativity) : vo_scope.
Notation "m ;; k" := (bind m (fun _ => k))
  (at level 100, right associativity) : vo_scope.
Local Open Scope vo_scope.

Definition exec {A} (m : M A) (w : world) : world := snd (m w).
Definition eval {A} (m : M A) (w : world) : A := fst (m w).

(** The events a computation appends to the trace of [w]. *)
Definition events {A} (m : M A) (w : world) : list event :=
  drop (length (trace w)) (trace (exec m w)).

Definition emit (e : event) : M unit := fun w =>
  (tt, {| vctx := vctx w; config := config w; outputs := outputs w;
          next_output := next_output w; tick := tick w;
          trace := trace w ++ [e]; log := log w |}).

Definition obs_log (l : log_level) (fmt : string) (args : list string) : M unit := fun w =>
  (tt, {| vctx := vctx w; config := config w; outputs := outputs w;
          next_output := next_output w; tick := tick w;
          trace := trace w; log := log w ++ [(l, fmt, args)] |}).

Definition get {A} (f : vertical_output_context -> A) : M A := fun w => (f (vctx w), w).

Definition put_vctx (c : vertical_output_context) : M unit := fun w =>
  (tt, {| vctx := c; config := config w; outputs := outputs w;
          next_output := next_output w; tick := tick w;
          trace := trace w; log := log w |}).

Definition put_config (c : Config) : M unit := fun w =>
  (tt, {| vctx := vctx w; config := c; outputs := outputs w;
          next_output := next_output w; tick := tick w;
          trace := trace w; log := log w |}).

Definition put_outputs (m : gmap nat obs_output) : M unit := fun w =>
  (tt, {| vctx := vctx w; config := config w; outputs := m;
          next_output := next_output w; tick := tick w;
          trace := trace w; log := log w |}).

(** Assignments to the fields of [vctx]. *)
Definition set_is_running (b : bool) : M unit := fun w =>
  put_vctx {| is_running := b; ndi_name := ndi_name (vctx w);
              ndi_groups := ndi_groups (vctx w); last_error := last_error (vctx w);
              output := output (vctx w) |} w.
Definition set_ndi_name (s : string) : M unit := fun w =>
  put_vctx {| is_running := is_running (vctx w); ndi_name := s;
              ndi_groups := ndi_groups (vctx w); last_error := last_error (vctx w);
              output := output (vctx w) |} w.
Definition set_ndi_groups (s : string) : M unit := fun w =>
  put_vctx {| is_running := is_running (vctx w); ndi_name := ndi_name (vctx w);
              ndi_groups := s; last_error := last_error (vctx w);
              output := output (vctx w) |} w.
Definition set_last_error (s : string) : M unit := fun w =>
  put_vctx {| is_running := is_running (vctx w); ndi_name := ndi_name (vctx w);
              ndi_groups := ndi_groups (vctx w); last_error := s;
              output := output (vctx w) |} w.
Definition set_output (o : option obs_output_t) : M unit := fun w =>
  put_vctx {| is_running := is_running (vctx w); ndi_name := ndi_name (vctx w);
              ndi_groups := ndi_groups (vctx w); last_error := last_error (vctx w);
              output := o |} w.

(** ** libobs, as the controller sees it

    libobs is the host library, not part of this repository.  What
    follows is the behaviour of its functions at the boundary of this
    file, as its API documents it:
    - every function on an output, and [QString] on a C string, accepts a
      null pointer and then does nothing (or answers false / null);
    - [obs_output_set_media] replaces the video and audio source of the
      output;
    - [obs_output_stop] deactivates the output and leaves its media
      binding alone, which is why the controller detaches the media
      itself before stopping and again in [vertical_output_deinit];
    - [obs_output_release] gives up the controller's reference; the object
      and its signal table stay as they are for as long as libobs keeps the
      output alive;
    - [signal_handler_connect] adds a callback unless it is connected
      already, [signal_handler_disconnect] removes it;
    - signals are delivered by the host as steps of their own (see
      [signal_handler_signal] below), not inside the calls made here. *)

Section Controller.

Variable E : Env.

(** One query to the environment. *)
Definition ask {A} (f : Env -> nat -> A) : M A := fun w =>
  (f E (tick w),
   {| vctx := vctx w; config := config w; outputs := outputs w;
      next_output := next_output w; tick := S (tick w);
      trace := trace w; log := log w |}).

(** libobs ignores calls on a null output. *)
Definition update_output (o : option obs_output_t) (f : obs_output -> obs_output)
  : M unit := fun w =>
  match o with
  | Some h => put_outputs (alter f h (outputs w)) w
  | None => (tt, w)
  end.

Definition lookup_output (o : option obs_output_t) : M (option obs_output) := fun w =>
  (match o with Some h => outputs w !! h | None => None end, w).

Definition obs_get_proc_handler : M bool :=
  p <- ask env_proc_handler ;;
  emit (EvGetProcHandler p) ;;
  ret p.

Definition proc_handler_call (name : string) (cd : list (string * calldata_item))
  : M (bool * list (string * calldata_item)) :=
  r <- ask (fun e n => env_proc_call e n name) ;;
  match r with
  | Some p => emit (EvProcCall name cd true) ;; ret (true, cd ++ [("video", CdPtr p)])
  | None => emit (EvProcCall name cd false) ;; ret (false, cd)
  end.

Definition obs_frontend_get_canvases : M (list obs_canvas) :=
  cl <- ask env_canvases ;;
  emit (EvGetCanvases (length cl)) ;;
  ret cl.

Definition obs_frontend_canvas_list_free : M unit := emit EvCanvasListFree.

Definition obs_canvas_get_name (c : obs_canvas) : M (option string) :=
  emit (EvCanvasGetName (canvas_id c)) ;;
  ret (canvas_name c).

Definition obs_canvas_get_ref (c : obs_canvas) : M (option obs_canvas) :=
  emit (EvCanvasGetRef (canvas_id c) (canvas_ref c)) ;;
  ret (if canvas_ref c then Some c else None).

Definition obs_canvas_get_video (c : obs_canvas) : M (option video_t) :=
  emit (EvCanvasGetVideo (canvas_id c) (canvas_video c)) ;;
  ret (canvas_video c).

Definition obs_canvas_release (c : obs_canvas) : M unit :=
  emit (EvCanvasRelease (canvas_id c)).

Definition obs_get_video : M video_t :=
  v <- ask env_video ;;
  emit (EvGetVideo v) ;;
  ret v.

Definition obs_get_audio : M audio_t :=
  a <- ask env_audio ;;
  emit (EvGetAudio a) ;;
  ret a.

(** A new output gets the next free handle; it starts inactive, with no
    media, no error message and no signal callbacks. *)
Definition obs_output_create (id name : string) (settings : gmap string obs_data_item)
  : M (option obs_output_t) :=
  ok <- ask env_output_create ;;
  if ok then
    fun w =>
      let h := next_output w in
      let o := {| out_id := id; out_name := name; out_settings := settings;
                  out_video := None; out_audio := None; out_active := false;
                  out_last_error := None; out_signals := []; out_released := false |} in
      (Some h,
       {| vctx := vctx w; config := config w; outputs := <[h := o]> (outputs w);
          next_output := S h; tick := tick w;
          trace := trace w ++ [EvOutputCreate id name settings (Some h)];
          log := log w |})
  else
    emit (EvOutputCreate id name settings None) ;;
    ret None.

Definition obs_output_set_media (o : option obs_output_t)
    (v : option video_t) (a : option audio_t) : M unit :=
  emit (EvOutputSetMedia o v a) ;;
  update_output o (out_set_media v a).

(** [obs_output_start]: false on a null output; otherwise the host
    decides.  A start attempt resets the output's error message, and a
    refused one leaves the reason (if any) behind. *)
Definition obs_output_start (o : option obs_output_t) : M bool :=
  match o with
  | None => emit (EvOutputStart None false) ;; ret false
  | Some _ =>
    r <- ask env_output_start ;;
    match r with
    | StartOk =>
      emit (EvOutputStart o true) ;;
      update_output o (fun x => out_set_active true (out_set_last_error None x)) ;;
      ret true
    | StartRefused msg =>
      emit (EvOutputStart o false) ;;
      update_output o (out_set_last_error msg) ;;
      ret false
    end
  end.

(** [obs_output_stop]: the output is no longer active; media, error
    message and callbacks are as before. *)
Definition obs_output_stop (o : option obs_output_t) : M unit :=
  emit (EvOutputStop o) ;;
  update_output o (out_set_active false).

(** [obs_output_get_last_error]: the message the last start attempt left
    in the output, null when there is none. *)
Definition obs_output_get_last_error (o : option obs_output_t) : M (option string) :=
  x <- lookup_output o ;;
  let msg := match x with Some x => out_last_error x | None => None end in
  emit (EvOutputGetLastError o msg) ;;
  ret msg.

Definition obs_output_release (o : option obs_output_t) : M unit :=
  emit (EvOutputRelease o) ;;
  update_output o out_set_released.

(** The signal handler of an output is addressed through the output. *)
Definition obs_output_get_signal_handler (o : option obs_output_t)
  : M (option obs_output_t) :=
  emit (EvGetSignalHandler o) ;;
  ret o.

Definition connect_signal (signal : string) (cb : callback)
    (l : list (string * callback)) : list (string * callback) :=
  if decide ((signal, cb) ∈ l) then l else l ++ [(signal, cb)].

Definition disconnect_signal (signal : string) (cb : callback)
    (l : list (string * callback)) : list (string * callback) :=
  filter (fun x => x ≠ (signal, cb)) l.

Definition signal_handler_connect (sh : option obs_output_t) (signal : string)
    (cb : callback) : M unit :=
  emit (EvSignalConnect sh signal cb) ;;
  update_output sh (fun x => out_set_signals (connect_signal signal cb (out_signals x)) x).

Definition signal_handler_disconnect (sh : option obs_output_t) (signal : string)
    (cb : callback) : M unit :=
  emit (EvSignalDisconnect sh signal cb) ;;
  update_output sh (fun x => out_set_signals (disconnect_signal signal cb (out_signals x)) x).

(** A pointer used as a condition: [if (p)]. *)
Definition non_null {A} (p : option A) : bool :=
  match p with Some _ => true | None => false end.

(** ** Qt strings *)

(** [QString] built from a C string: a null pointer gives the null (empty)
    string. *)
Definition QString (p : option string) : string := default "" p.
Definition QT_TO_UTF8 (s : string) : string := s.
Definition isEmpty (s : string) : bool :=
  match s with EmptyString => true | String _ _ => false end.

(** ** src/vertical-output.cpp *)

Definition AITUM_VERTICAL_CANVAS_NAME : string := "Aitum Vertical".

Definition vertical_output_last_error : M string := get last_error.

(** The loop of [find_aitum_vertical_canvas]: the first canvas whose name
    is non-null and equal to the reserved name is referenced, and the loop
    breaks there whether or not the reference was obtained. *)
Fixpoint find_aitum_vertical_canvas_loop (cl : list obs_canvas) : M (option obs_canvas) :=
  match cl with
  | [] => ret None
  | c :: rest =>
    name <- obs_canvas_get_name c ;;
    match name with
    | Some n =>
      if String.eqb n AITUM_VERTICAL_CANVAS_NAME
      then obs_canvas_get_ref c
      else find_aitum_vertical_canvas_loop rest
    | None => find_aitum_vertical_canvas_loop rest
    end
  end.

Definition find_aitum_vertical_canvas : M (option obs_canvas) :=
  cl <- obs_frontend_get_canvases ;;
  found <- find_aitum_vertical_canvas_loop cl ;;
  obs_frontend_canvas_list_free ;;
  ret found.

(** The vendor query: width and height 0 ask for any vertical canvas. *)
Definition get_aitum_vertical_video : M (option video_t) :=
  ph <- obs_get_proc_handler ;;
  if negb ph then ret None
  else
    let cd := calldata_init in
    let cd := calldata_set_int cd "width" 0 in
    let cd := calldata_set_int cd "height" 0 in
    r <- proc_handler_call "aitum_vertical_get_video" cd ;;
    ret (if fst r then calldata_ptr (snd r) "video" else None).

(** The signal callbacks: each writes the shared enabled flag. *)
Definition set_VerticalOutputEnabled (b : bool) : M unit := fun w =>
  put_config {| VerticalOutputEnabled := b;
                VerticalOutputName := VerticalOutputName (config w);
                VerticalOutputGroups := VerticalOutputGroups (config w) |} w.

Definition run_on_vertical_output_started : M unit :=
  obs_log LOG_DEBUG "+on_vertical_output_started()" [] ;;
  set_VerticalOutputEnabled true ;;
  obs_log LOG_DEBUG "-on_vertical_output_started()" [] ;;
  obs_log LOG_INFO "NDI Vertical Output started" [].

Definition run_on_vertical_output_stopped : M unit :=
  obs_log LOG_DEBUG "+on_vertical_output_stopped()" [] ;;
  set_VerticalOutputEnabled false ;;
  obs_log LOG_DEBUG "-on_vertical_output_stopped()" [] ;;
  obs_log LOG_INFO "NDI Vertical Output stopped" [].

Definition run_callback (cb : callback) : M unit :=
  match cb with
  | on_vertical_output_started => run_on_vertical_output_started
  | on_vertical_output_stopped => run_on_vertical_output_stopped
  end.

Definition vertical_output_stop : M unit :=
  obs_log LOG_DEBUG "+vertical_output_stop()" [] ;;
  running <- get is_running ;;
  (if running then
     name <- get ndi_name ;;
     obs_log LOG_DEBUG "vertical_output_stop: stopping NDI Vertical Output '%s'"
       [QT_TO_UTF8 name] ;;
     o <- get output ;;
     obs_output_set_media o None None ;;
     o <- get output ;;
     obs_output_stop o ;;
     set_is_running false ;;
     name <- get ndi_name ;;
     obs_log LOG_DEBUG "vertical_output_stop: stopped NDI Vertical Output '%s'"
       [QT_TO_UTF8 name]
   else
     name <- get ndi_name ;;
     obs_log LOG_DEBUG "vertical_output_stop: NDI Vertical Output '%s' not running"
       [QT_TO_UTF8 name]) ;;
  obs_log LOG_DEBUG "-vertical_output_stop()" [].

(** Lines 130-154 of [vertical_output_start]: the local [video] goes
    through three blocks, each of which runs only while it is still null.
    1) The vendor proc exposed by the Aitum Vertical plugin. *)
Definition start_video_vendor (video : option video_t) : M (option video_t) :=
  if negb (non_null video) then
    video <- get_aitum_vertical_video ;;
    (if non_null video
     then obs_log LOG_INFO "Vertical NDI: bound to Aitum video via vendor proc" []
     else ret tt) ;;
    ret video
  else ret video.

(** 2) The canvas API, when compiled in. *)
Definition start_video_canvas (video : option video_t) : M (option video_t) :=
  if HAVE_OBS_CANVAS_API E then
    if negb (non_null video) then
      canvas <- find_aitum_vertical_canvas ;;
      match canvas with
      | Some c =>
        video <- obs_canvas_get_video c ;;
        obs_canvas_release c ;;
        (if non_null video
         then obs_log LOG_INFO "Vertical NDI: bound to Aitum canvas via canvas API" []
         else ret tt) ;;
        ret video
      | None => ret video
      end
    else ret video
  else ret video.

(** 3) The main program video. *)
Definition start_video_main (video : option video_t) : M (option video_t) :=
  if negb (non_null video) then
    v <- obs_get_video ;;
    obs_log LOG_INFO "Vertical NDI: bound to main program video" [] ;;
    ret (Some v)
  else ret video.

Definition vertical_output_start_video : M (option video_t) :=
  let video : option video_t := None in
  video <- start_video_vendor video ;;
  video <- start_video_canvas video ;;
  start_video_main video.

Definition vertical_output_start : M unit :=
  obs_log LOG_DEBUG "+vertical_output_start()" [] ;;
  o <- get output ;;
  match o with
  | None =>
    obs_log LOG_ERROR "ERR-451 - NDI Vertical Output not initialized" [] ;;
    obs_log LOG_DEBUG "vertical_output_start: not initialized" [] ;;
    obs_log LOG_DEBUG "-vertical_output_start()" []
  | Some _ =>
    running <- get is_running ;;
    (if running then vertical_output_stop else ret tt) ;;
    video <- vertical_output_start_video ;;
    audio <- obs_get_audio ;;
    o <- get output ;;
    obs_output_set_media o video (Some audio) ;;
    o <- get output ;;
    ok <- obs_output_start o ;;
    set_is_running ok ;;
    running <- get is_running ;;
    (if running then
       set_last_error (QString (Some "")) ;;
       name <- get ndi_name ;;
       obs_log LOG_DEBUG "vertical_output_start: started '%s'" [QT_TO_UTF8 name]
     else
       o <- get output ;;
       e <- obs_output_get_last_error o ;;
       set_last_error (QString e) ;;
       name <- get ndi_name ;;
       err <- get last_error ;;
       obs_log LOG_ERROR "ERR-450 - Failed to start NDI Vertical Output '%s'; error='%s'"
         [QT_TO_UTF8 name; QT_TO_UTF8 err] ;;
       o <- get output ;;
       obs_output_stop o) ;;
    obs_log LOG_DEBUG "-vertical_output_start()" []
  end.

Definition vertical_output_is_supported : M bool :=
  obs_log LOG_DEBUG "+vertical_output_is_supported()" [] ;;
  let supported := true in
  let settings := obs_data_create in
  let settings := obs_data_set_string settings "ndi_name" "NDI Vertical Support Test" in
  let settings := obs_data_set_string settings "ndi_groups" "DistroAV Config" in
  out <- obs_output_create "ndi_output" "NDI Vertical Output" settings ;;
  supported <-
    match out with
    | Some _ =>
      ok <- obs_output_start out ;;
      let supported := if negb ok then false else supported in
      obs_output_stop out ;;
      obs_output_release out ;;
      ret supported
    | None => ret false
    end ;;
  obs_log LOG_DEBUG "-vertical_output_is_supported()" [] ;;
  ret supported.

Definition vertical_output_deinit : M unit :=
  obs_log LOG_DEBUG "+vertical_output_deinit()" [] ;;
  o <- get output ;;
  match o with
  | Some _ =>
    vertical_output_stop ;;
    o <- get output ;;
    obs_output_set_media o None None ;;
    o <- get output ;;
    sh <- obs_output_get_signal_handler o ;;
    signal_handler_disconnect sh "start" on_vertical_output_started ;;
    signal_handler_disconnect sh "stop" on_vertical_output_stopped ;;
    o <- get output ;;
    obs_output_release o ;;
    set_output None ;;
    set_ndi_name "" ;;
    set_ndi_groups ""
  | None => ret tt
  end ;;
  obs_log LOG_DEBUG "-vertical_output_deinit()" [].

Definition vertical_output_init : M unit :=
  obs_log LOG_DEBUG "+vertical_output_init()" [] ;;
  config <- (fun w => (config w, w)) ;;
  if negb (VerticalOutputEnabled config) || isEmpty (VerticalOutputName config) then
    vertical_output_deinit ;;
    obs_log LOG_DEBUG "-vertical_output_init(): disabled or name empty" []
  else
    vertical_output_deinit ;;
    obs_log LOG_DEBUG "vertical_output_init: creating NDI Vertical Output '%s'"
      [QT_TO_UTF8 (VerticalOutputName config)] ;;
    let output_settings := obs_data_create in
    let output_settings :=
      obs_data_set_string output_settings "ndi_name"
        (QT_TO_UTF8 (VerticalOutputName config)) in
    let output_settings :=
      obs_data_set_string output_settings "ndi_groups"
        (QT_TO_UTF8 (VerticalOutputGroups config)) in
    let output_settings := obs_data_set_bool output_settings "uses_audio" true in
    out <- obs_output_create "ndi_output" "NDI Vertical Output" output_settings ;;
    set_output out ;;
    o <- get output ;;
    match o with
    | Some _ =>
      sh <- obs_output_get_signal_handler o ;;
      signal_handler_connect sh "start" on_vertical_output_started ;;
      signal_handler_connect sh "stop" on_vertical_output_stopped ;;
      set_ndi_name (VerticalOutputName config) ;;
      set_ndi_groups (VerticalOutputGroups config) ;;
      vertical_output_start
    | None =>
      obs_log LOG_ERROR "ERR-452 - Failed to create NDI Vertical Output '%s'"
        [QT_TO_UTF8 (VerticalOutputName config)]
    end ;;
    obs_log LOG_DEBUG "-vertical_output_init()" [].

(** ** Runs

    Signals are delivered by the host on its own threads; a delivery is a
    step of its own, which runs the callbacks connected to the output for
    that signal.  The configuration can be rewritten by its owner between
    calls. *)

Fixpoint run_callbacks (signal : string) (l : list (string * callback)) : M unit :=
  match l with
  | [] => ret tt
  | (s, cb) :: rest =>
    (if String.eqb s signal then run_callback cb else ret tt) ;;
    run_callbacks signal rest
  end.

Definition signal_handler_signal (o : option obs_output_t) (signal : string) : M unit :=
  x <- lookup_output o ;;
  match x with
  | Some x => run_callbacks signal (out_signals x)
  | None => ret tt
  end.

Inductive call :=
| CallInit
| CallStart
| CallStop
| CallDeinit
| CallIsSupported
| CallLastError
| HostSignal (h : obs_output_t) (signal : string)
| HostConfig (c : Config).

Definition run_call (c : call) : M unit :=
  match c with
  | CallInit => vertical_output_init
  | CallStart => vertical_output_start
  | CallStop => vertical_output_stop
  | CallDeinit => vertical_output_deinit
  | CallIsSupported => vertical_output_is_supported ;; ret tt
  | CallLastError => vertical_output_last_error ;; ret tt
  | HostSignal h signal => signal_handler_signal (Some h) signal
  | HostConfig c => put_config c
  end.

Fixpoint run_calls (l : list call) : M unit :=
  match l with
  | [] => ret tt
  | c :: rest => run_call c ;; run_calls rest
  end.

(** The states the controller can be in: those some run of calls reaches
    from the state at module load. *)
Definition reachable (w : world) : Prop :=
  exists (c : Config) (l : list call), w = exec (run_calls l) (world0 c).

End Controller.

(** ** Vocabulary of the properties *)

(** [w] with the query counter at [t], [evs] appended to the trace and
    [lg] to the log; everything else as in [w]. *)
Definition advance (t : nat) (evs : list event)
    (lg : list (log_level * string * list string)) (w : world) : world :=
  {| vctx := vctx w; config := config w; outputs := outputs w;
     next_output := next_output w; tick := t;
     trace := trace w ++ evs; log := log w ++ lg |}.

(** The canvas named exactly as the reserved name. *)
Definition canvas_named_aitum (c : obs_canvas) : bool :=
  match canvas_name c with
  | Some n => String.eqb n AITUM_VERTICAL_CANVAS_NAME
  | None => false
  end.

(** What the canvas tier gets out of a canvas list: the video of the first
    canvas with the reserved name, provided that canvas could be
    referenced. *)
Definition canvas_tier_video (cl : list obs_canvas) : option video_t :=
  match List.find canvas_named_aitum cl with
  | Some c => if canvas_ref c then canvas_video c else None
  | None => None
  end.

(** Events of the canvas tier. *)
Definition is_canvas_event (e : event) : bool :=
  match e with
  | EvGetCanvases _ | EvCanvasGetName _ | EvCanvasGetRef _ _ | EvCanvasListFree
  | EvCanvasGetVideo _ _ | EvCanvasRelease _ => true
  | _ => false
  end.

(** The main-video fallback. *)
Definition is_main_video_event (e : event) : bool :=
  match e with EvGetVideo _ => true | _ => false end.

(** Calls that address an output object [o]. *)
Definition is_output_event (e : event) : bool :=
  match e with
  | EvOutputCreate _ _ _ _ | EvOutputSetMedia _ _ _ | EvOutputStart _ _
  | EvOutputStop _ | EvOutputGetLastError _ _ | EvOutputRelease _
  | EvGetSignalHandler _ | EvSignalConnect _ _ _ | EvSignalDisconnect _ _ _ => true
  | _ => false
  end.

(** The settings [vertical_output_init] creates its output with. *)
Definition init_settings (c : Config) : gmap string obs_data_item :=
  obs_data_set_bool
    (obs_data_set_string
       (obs_data_set_string obs_data_create "ndi_name" (VerticalOutputName c))
       "ndi_groups" (VerticalOutputGroups c))
    "uses_audio" true.

(** The output object [vertical_output_init] has made by the time it
    calls [vertical_output_start]: freshly created, both callbacks
    connected. *)
Definition init_output (c : Config) : obs_output :=
  {| out_id := "ndi_output"; out_name := "NDI Vertical Output";
     out_settings := init_settings c;
     out_video := None; out_audio := None; out_active := false;
     out_last_error := None;
     out_signals := [("start", on_vertical_output_started);
                     ("stop", on_vertical_output_stopped)];
     out_released := false |}.

(** Whether a start request was granted. *)
Definition started (r : start_outcome) : bool :=
  match r with StartOk => true | StartRefused _ => false end.

(** The message a start request leaves in the output. *)
Definition start_message (r : start_outcome) : option string :=
  match r with StartOk => None | StartRefused msg => msg end.

(** The output object after a call of [vertical_output_start] that bound
    [v] and [a] and got [r] from the host. *)
Definition out_after_start (v : video_t) (a : audio_t) (r : start_outcome)
    (x : obs_output) : obs_output :=
  {| out_id := out_id x; out_name := out_name x; out_settings := out_settings x;
     out_video := Some v; out_audio := Some a; out_active := started r;
     out_last_error := start_message r; out_signals := out_signals x;
     out_released := out_released x |}.

Definition is_start_event (e : event) : bool :=
  match e with EvOutputStart _ _ => true | _ => false end.

(** The invariant of the controller's state.  With no output, nothing
    runs and name and groups are empty; an output held by [vctx] is an
    object of the host, and while [is_running] is set it has both a video
    and an audio source bound.  Handles are allocated in order. *)
Definition vctx_inv (w : world) : Prop :=
  (output (vctx w) = None ->
     is_running (vctx w) = false /\ ndi_name (vctx w) = "" /\ ndi_groups (vctx w) = "") /\
  (forall h, output (vctx w) = Some h ->
     exists o, outputs w !! h = Some o /\
       (is_running (vctx w) = true -> is_Some (out_video o) /\ is_Some (out_audio o))) /\
  (forall h, is_Some (outputs w !! h) -> h < next_output w).

(** The settings of the probe output of [vertical_output_is_supported]. *)
Definition probe_settings : gmap string obs_data_item :=
  obs_data_set_string
    (obs_data_set_string obs_data_create "ndi_name" "NDI Vertical Support Test")
    "ndi_groups" "DistroAV Config".

(** ** Vocabulary of the further properties *)

(** The two callbacks as [vertical_output_init] connects them. *)
Definition both_callbacks : list (string * callback) :=
  [("start", on_vertical_output_started); ("stop", on_vertical_output_stopped)].

(** The output held by [vctx]: the controller's reference is live, both
    callbacks are connected, and it is active exactly while [is_running]
    is set. *)
Definition held_output (running : bool) (x : obs_output) : Prop :=
  out_released x = false /\ out_signals x = both_callbacks /\ out_active x = running.

(** An output the controller is done with: released, no callback
    connected, inactive, no media bound. *)
Definition torn_down (x : obs_output) : Prop :=
  out_released x = true /\ out_signals x = [] /\ out_active x = false /\
  out_video x = None /\ out_audio x = None.

(** Every output object is the held one or is torn down. *)
Definition outputs_inv (w : world) : Prop :=
  forall h x, outputs w !! h = Some x ->
    if decide (output (vctx w) = Some h)
    then held_output (is_running (vctx w)) x
    else torn_down x.

(** Canvas references taken and given back, canvas lists fetched and
    freed. *)
Definition is_ref_taken (e : event) : bool :=
  match e with EvCanvasGetRef _ true => true | _ => false end.
Definition is_ref_released (e : event) : bool :=
  match e with EvCanvasRelease _ => true | _ => false end.
Definition is_list_fetched (e : event) : bool :=
  match e with EvGetCanvases _ => true | _ => false end.
Definition is_list_freed (e : event) : bool :=
  match e with EvCanvasListFree => true | _ => false end.

(** How often [p] holds in a trace. *)
Definition count_events (p : event -> bool) (evs : list event) : nat :=
  length (List.filter p evs).

(** The [LOG_ERROR] lines of a log. *)
Definition is_error_line (l : log_level * string * list string) : bool :=
  match l with (LOG_ERROR, _, _) => true | _ => false end.

(** The log lines a computation appends to the log of [w]. *)
Definition logged {A} (m : M A) (w : world) : list (log_level * string * list string) :=
  drop (length (log w)) (log (exec m w)).

(** [w'] is [w] with the shared enabled flag set to [b]: name and groups
    of the configuration, the context, the host objects and the trace are
    the same. *)
Definition enabled_flag_set (b : bool) (w w' : world) : Prop :=
  config w' = {| VerticalOutputEnabled := b;
                 VerticalOutputName := VerticalOutputName (config w);
                 VerticalOutputGroups := VerticalOutputGroups (config w) |} /\
  vctx w' = vctx w /\ outputs w' = outputs w /\
  next_output w' = next_output w /\ trace w' = trace w.

(** Calls that make no start attempt. *)
Definition makes_no_start (c : call) : bool :=
  match c with CallInit | CallStart => false | _ => true end.

(** The line the resolver logs, by the tier that supplies the handle. *)
Definition tier_line (vq cv : option video_t) : log_level * string * list string :=
  (LOG_INFO,
   if non_null vq then "Vertical NDI: bound to Aitum video via vendor proc"
   else if non_null cv then "Vertical NDI: bound to Aitum canvas via canvas API"
   else "Vertical NDI: bound to main program video",
   []).

(** The output a call is made on; for [obs_output_create], the output it
    returns. *)
Definition event_output (e : event) : option obs_output_t :=
  match e with
  | EvOutputCreate _ _ _ o | EvOutputSetMedia o _ _ | EvOutputStart o _
  | EvOutputStop o | EvOutputGetLastError o _ | EvOutputRelease o
  | EvGetSignalHandler o | EvSignalConnect o _ _ | EvSignalDisconnect o _ _ => o
  | _ => None
  end.

Definition is_create (e : event) : bool :=
  match e with EvOutputCreate _ _ _ _ => true | _ => false end.

Definition is_release (e : event) : bool :=
  match e with EvOutputRelease _ => true | _ => false end.

(** A call on an output object that passes a null output. *)
Definition null_output_call (e : event) : bool :=
  is_output_event e && negb (is_create e) && negb (non_null (event_output e)).

(** An output released in [evs] is not used later in [evs], and is not
    [held]. *)
Fixpoint released_ok (held : option obs_output_t) (evs : list event) : Prop :=
  match evs with
  | [] => True
  | e :: rest =>
    (forall h, e = EvOutputRelease (Some h) ->
       Forall (fun e' => event_output e' <> Some h) rest /\ held <> Some h) /\
    released_ok held rest
  end.

(** The handle discipline: every handle in the trace has been allocated,
    a released output is not used again and is not held, the held output
    has been allocated, and no call passes a null output. *)
Definition handles_inv (w : world) : Prop :=
  (forall e k, e ∈ trace w -> event_output e = Some k -> k < next_output w) /\
  released_ok (output (vctx w)) (trace w) /\
  (forall h, output (vctx w) = Some h -> h < next_output w) /\
  Forall (fun e => null_output_call e = false) (trace w).

(** ** Concrete hosts and configurations

    A host whose main mix is video 7 and audio 9, which creates every
    output asked for; the fields that vary are the proc handler, the
    canvas list and the answer to start requests. *)
Definition host (api : bool) (proc : option (option video_t))
    (canvases : list obs_canvas) (start : start_outcome) : Env :=
  {| HAVE_OBS_CANVAS_API := api;
     env_proc_handler := fun _ => true;
     env_proc_call := fun _ name =>
       if String.eqb name "aitum_vertical_get_video" then proc else None;
     env_canvases := fun _ => canvases;
     env_video := fun _ => 7;
     env_audio := fun _ => 9;
     env_output_create := fun _ => true;
     env_output_start := fun _ => start |}.

Definition config_on : Config :=
  {| VerticalOutputEnabled := true; VerticalOutputName := "V1";
     VerticalOutputGroups := "G" |}.

Definition config_off : Config :=
  {| VerticalOutputEnabled := false; VerticalOutputName := "V1";
     VerticalOutputGroups := "G" |}.

(** No Aitum plugin, no canvas; every start request is refused with
    "device busy". *)
Definition host_busy : Env := host false None [] (StartRefused (Some "device busy")).

(** The same host, refusing without leaving a message. *)
Definition host_mute : Env := host false None [] (StartRefused None).

(** A host that grants start requests. *)
Definition host_ok : Env := host false None [] StartOk.

(** A host with the canvas API whose "Aitum Vertical" canvas has no video
    (it has no mix yet); the Aitum plugin's proc is not registered. *)
Definition canvas_without_video : obs_canvas :=
  {| canvas_id := 1; canvas_name := Some "Aitum Vertical"; canvas_ref := true;
     canvas_video := None |}.

Definition host_blank_canvas : Env := host true None [canvas_without_video] StartOk.

(** A host with a populated vertical canvas, and one with the plugin's
    proc answering. *)
Definition canvas_with_video : obs_canvas :=
  {| canvas_id := 1; canvas_name := Some "Aitum Vertical"; canvas_ref := true;
     canvas_video := Some 5 |}.

Definition host_canvas : Env := host true None [canvas_with_video] StartOk.
Definition host_vendor : Env := host true (Some (Some 3)) [canvas_with_video] StartOk.

(** The context after [init] on a host that refuses every start request
    with "device busy": an output exists, nothing runs. *)
Definition world_busy : world := exec (vertical_output_init host_busy) (world0 config_on).

(** The same on a host that refuses without a message. *)
Definition world_mute : world := exec (vertical_output_init host_mute) (world0 config_on).

(** The context after a successful [init]: running on output 0. *)
Definition world_running : world := exec (vertical_output_init host_ok) (world0 config_on).

(** A second session: [init], [deinit] and [init] again on that host. *)
Definition world_again : world :=
  exec (run_calls host_ok [CallInit; CallDeinit; CallInit]) (world0 config_on).

(** ** Properties *)

Section Properties.

Variable E : Env.

(** Unfold the controller and the host functions it calls, then compute. *)
Ltac run :=
  unfold events, exec, eval,
    vertical_output_init, vertical_output_deinit, vertical_output_is_supported,
    vertical_output_start, vertical_output_stop, vertical_output_last_error,
    get_aitum_vertical_video, find_aitum_vertical_canvas,
    obs_output_create, obs_output_start, obs_output_stop, obs_output_release,
    obs_output_set_media, obs_output_get_last_error, obs_output_get_signal_handler,
    signal_handler_connect, signal_handler_disconnect,
    obs_get_proc_handler, proc_handler_call, obs_frontend_get_canvases,
    obs_frontend_canvas_list_free, obs_canvas_get_name, obs_canvas_get_ref,
    obs_canvas_get_video, obs_canvas_release, obs_get_video, obs_get_audio,
    bind, ret;
  cbn.

(** *** The monad *)

Lemma exec_bind {A B} (m : M A) (k : A -> M B) w :
  exec (bind m k) w = exec (k (eval m w)) (exec m w).
Proof. unfold exec, eval, bind. by destruct (m w). Qed.

Lemma eval_bind {A B} (m : M A) (k : A -> M B) w :
  eval (bind m k) w = eval (k (eval m w)) (exec m w).
Proof. unfold exec, eval, bind. by destruct (m w). Qed.

Lemma events_of_trace {A} (m : M A) w evs :
  trace (exec m w) = trace w ++ evs -> events m w = evs.
Proof. unfold events. intros ->. apply drop_app_length. Qed.

Lemma advance_id w : advance (tick w) [] [] w = w.
Proof. destruct w. unfold advance. cbn. by rewrite !app_nil_r. Qed.

Lemma silent_eq w1 w2 :
  silent w1 = silent w2 ->
  vctx w1 = vctx w2 /\ config w1 = config w2 /\ outputs w1 = outputs w2 /\
  next_output w1 = next_output w2 /\ tick w1 = tick w2 /\ trace w1 = trace w2.
Proof. destruct w1, w2. cbn. intros [= -> -> -> -> -> ->]. done. Qed.

Lemma silent_events {A} (m : M A) w :
  silent (exec m w) = silent w -> events m w = [].
Proof.
  intros H. apply silent_eq in H as (_&_&_&_&_&H).
  apply events_of_trace. by rewrite H, app_nil_r.
Qed.

(** *** stop *)

Lemma stop_idle w :
  is_running (vctx w) = false ->
  silent (exec vertical_output_stop w) = silent w.
Proof.
  destruct w as [[r n g e o] cfg outs nx tk tr lg]. cbn. intros ->. reflexivity.
Qed.

Lemma stop_running w :
  is_running (vctx w) = true ->
  silent (exec vertical_output_stop w) =
  silent (exec (obs_output_set_media (output (vctx w)) None None ;;
                obs_output_stop (output (vctx w)) ;;
                set_is_running false) w).
Proof.
  destruct w as [[r n g e o] cfg outs nx tk tr lg]. cbn. intros ->.
  destruct o; reflexivity.
Qed.

(** *** deinit *)

Lemma deinit_none w :
  output (vctx w) = None ->
  silent (exec vertical_output_deinit w) = silent w.
Proof.
  destruct w as [[r n g e o] cfg outs nx tk tr lg]. cbn. intros ->. reflexivity.
Qed.

Lemma deinit_none_events w :
  output (vctx w) = None -> events vertical_output_deinit w = [].
Proof.
  intros Ho. by apply silent_events, deinit_none.
Qed.

Lemma deinit_output w : output (vctx (exec vertical_output_deinit w)) = None.
Proof.
  destruct w as [[r n g e o] cfg outs nx tk tr lg].
  destruct o, r; reflexivity.
Qed.

(** The events of [deinit] on an output [h]: the stop sequence when
    running, then the defensive detach, the two disconnects and the
    release. *)
Lemma deinit_events w h :
  output (vctx w) = Some h ->
  events vertical_output_deinit w =
    (if is_running (vctx w)
     then [EvOutputSetMedia (Some h) None None; EvOutputStop (Some h)] else []) ++
    [EvOutputSetMedia (Some h) None None; EvGetSignalHandler (Some h);
     EvSignalDisconnect (Some h) "start" on_vertical_output_started;
     EvSignalDisconnect (Some h) "stop" on_vertical_output_stopped;
     EvOutputRelease (Some h)].
Proof.
  intros Ho. apply events_of_trace.
  destruct w as [[r n g e o] cfg outs nx tk tr lg]. cbn in Ho. subst o.
  destruct r; cbn; by rewrite <- !app_assoc.
Qed.

Lemma deinit_vctx w :
  vctx (exec vertical_output_deinit w) =
  match output (vctx w) with
  | Some _ => {| is_running := false; ndi_name := ""; ndi_groups := "";
                 last_error := last_error (vctx w); output := None |}
  | None => vctx w
  end.
Proof.
  destruct w as [[r n g e o] cfg outs nx tk tr lg].
  destruct o, r; reflexivity.
Qed.

Lemma disconnect_signal_gone s cb l : (s, cb) ∉ disconnect_signal s cb l.
Proof. unfold disconnect_signal. rewrite list_elem_of_filter. by intros [Hne _]. Qed.

Lemma disconnect_signal_subseteq s cb l x :
  x ∈ disconnect_signal s cb l -> x ∈ l.
Proof. unfold disconnect_signal. rewrite list_elem_of_filter. by intros [_ Hin]. Qed.

(** The host object after [deinit]: released, inactive, no media, and
    neither callback connected. *)
Lemma deinit_released w h x :
  output (vctx w) = Some h ->
  outputs (exec vertical_output_deinit w) !! h = Some x ->
  out_released x = true /\
  out_video x = None /\ out_audio x = None /\
  (("start", on_vertical_output_started) ∉ out_signals x) /\
  (("stop", on_vertical_output_stopped) ∉ out_signals x).
Proof.
  destruct w as [[r n g e o] cfg outs nx tk tr lg]. cbn. intros ->.
  destruct r; cbn; rewrite !lookup_alter_eq;
    destruct (outs !! h) as [y|]; cbn; intros [= <-]; cbn;
    (repeat split; [intros Hin; apply disconnect_signal_subseteq in Hin;
                    by apply disconnect_signal_gone in Hin
                   | apply disconnect_signal_gone]).
Qed.

(** *** The capability probe *)

Lemma is_supported_vctx w :
  vctx (exec (vertical_output_is_supported E) w) = vctx w.
Proof.
  run. destruct (env_output_create E (tick w)); cbn; [|done].
  destruct (env_output_start E (S (tick w))); by cbn.
Qed.

(** *** The video source tiers *)

Lemma find_loop_run cl w :
  exists evs,
    find_aitum_vertical_canvas_loop cl w =
      (match List.find canvas_named_aitum cl with
       | Some c => if canvas_ref c then Some c else None
       | None => None
       end, advance (tick w) evs [] w) /\
    Forall (fun e => is_canvas_event e = true /\ is_main_video_event e = false) evs.
Proof.
  revert w. induction cl as [|c cl IH]; intros w.
  - exists []. cbn. by rewrite advance_id.
  - cbn [find_aitum_vertical_canvas_loop List.find]. unfold canvas_named_aitum at 1.
    run. destruct (canvas_name c) as [nm|].
    + destruct (String.eqb nm AITUM_VERTICAL_CANVAS_NAME).
      * exists [EvCanvasGetName (canvas_id c); EvCanvasGetRef (canvas_id c) (canvas_ref c)].
        split; [|by repeat constructor].
        destruct w; unfold advance; cbn. by rewrite app_nil_r, <- app_assoc.
      * match goal with |- context [find_aitum_vertical_canvas_loop cl ?w0] =>
          destruct (IH w0) as (evs & -> & Hall) end.
        exists (EvCanvasGetName (canvas_id c) :: evs). split; [|by repeat constructor].
        destruct w; unfold advance; cbn. by rewrite <- app_assoc.
    + match goal with |- context [find_aitum_vertical_canvas_loop cl ?w0] =>
        destruct (IH w0) as (evs & -> & Hall) end.
      exists (EvCanvasGetName (canvas_id c) :: evs). split; [|by repeat constructor].
      destruct w; unfold advance; cbn. by rewrite <- app_assoc.
Qed.

Arguments find_aitum_vertical_canvas_loop : simpl never.

Ltac framed := unfold advance; cbn; rewrite <- ?app_assoc; reflexivity.

(** Membership and [Forall] goals over a trace written out as a chain of
    appends, one segment of which is a hypothesis [Forall _ evs]. *)
Ltac in_trace :=
  cbn;
  repeat first [ apply list_elem_of_here | apply list_elem_of_further
               | (apply elem_of_app; right) ].

Ltac all_trace :=
  cbn;
  repeat first
    [ apply Forall_nil_2
    | apply Forall_cons_2; [done|]
    | apply Forall_app_2;
      [match goal with H : Forall _ ?l |- Forall _ ?l =>
         eapply Forall_impl; [exact H | by intros ? [? ?]] end|] ].

(** The vendor query: one or two calls, none of another tier. *)
Lemma vendor_events w :
  events (get_aitum_vertical_video E) w =
    if env_proc_handler E (tick w) then
      [EvGetProcHandler true;
       EvProcCall "aitum_vertical_get_video" [("width", CdInt 0); ("height", CdInt 0)]
         (bool_decide (is_Some (env_proc_call E (S (tick w)) "aitum_vertical_get_video")))]
    else [EvGetProcHandler false].
Proof.
  apply events_of_trace. run.
  destruct (env_proc_handler E (tick w)); cbn; [|done].
  destruct (env_proc_call E (S (tick w)) _); cbn; by rewrite <- app_assoc.
Qed.

Lemma vendor_run w :
  start_video_vendor E None w =
    (eval (get_aitum_vertical_video E) w,
     advance (tick (exec (get_aitum_vertical_video E) w))
       (events (get_aitum_vertical_video E) w)
       (if non_null (eval (get_aitum_vertical_video E) w)
        then [(LOG_INFO, "Vertical NDI: bound to Aitum video via vendor proc", [])]
        else []) w).
Proof.
  rewrite vendor_events. unfold start_video_vendor. run.
  destruct (env_proc_handler E (tick w)); cbn.
  - destruct (env_proc_call E (S (tick w)) _) as [[v|]|]; cbn;
      unfold advance; cbn; by rewrite <- ?app_assoc, ?app_nil_r.
  - unfold advance; cbn; by rewrite <- ?app_assoc, ?app_nil_r.
Qed.

Lemma canvas_run w :
  exists t cpart lg,
    start_video_canvas E None w =
      (if HAVE_OBS_CANVAS_API E
       then canvas_tier_video (env_canvases E (tick w)) else None,
       advance t cpart lg w) /\
    Forall (fun e => is_canvas_event e = true /\ is_main_video_event e = false) cpart /\
    (if HAVE_OBS_CANVAS_API E
     then EvGetCanvases (length (env_canvases E (tick w))) ∈ cpart
     else cpart = []).
Proof.
  unfold start_video_canvas, canvas_tier_video. run.
  destruct (HAVE_OBS_CANVAS_API E); cbn.
  - match goal with |- context [find_aitum_vertical_canvas_loop ?cl ?w0] =>
      destruct (find_loop_run cl w0) as (evs & -> & Hall) end.
    cbn. destruct (List.find _ _) as [c|]; cbn;
      [destruct (canvas_ref c); cbn|].
    + exists (S (tick w)),
        (EvGetCanvases (length (env_canvases E (tick w))) :: evs ++
           [EvCanvasListFree; EvCanvasGetVideo (canvas_id c) (canvas_video c);
            EvCanvasRelease (canvas_id c)]).
      destruct (canvas_video c); (eexists; split; [framed|split; [all_trace | in_trace]]).
    + exists (S (tick w)),
        (EvGetCanvases (length (env_canvases E (tick w))) :: evs ++ [EvCanvasListFree]).
      eexists. split; [framed | split; [all_trace | in_trace]].
    + exists (S (tick w)),
        (EvGetCanvases (length (env_canvases E (tick w))) :: evs ++ [EvCanvasListFree]).
      eexists. split; [framed | split; [all_trace | in_trace]].
  - exists (tick w), [], []. by rewrite advance_id.
Qed.

Lemma main_run w :
  start_video_main E None w =
    (Some (env_video E (tick w)),
     advance (S (tick w)) [EvGetVideo (env_video E (tick w))]
       [(LOG_INFO, "Vertical NDI: bound to main program video", [])] w).
Proof. reflexivity. Qed.

Lemma advance_advance t1 e1 l1 t2 e2 l2 w :
  advance t2 e2 l2 (advance t1 e1 l1 w) = advance t2 (e1 ++ e2) (l1 ++ l2) w.
Proof. unfold advance. cbn. by rewrite !app_assoc. Qed.

(** The three tiers of [vertical_output_start].  The run only moves the
    query counter, the trace and the log.  Its calls are those of the
    vendor query, then those of the canvas tier, then the main-video
    fallback; what the vendor query and the canvas list answer decides
    which of them are made and which handle comes out. *)
Lemma start_video_run w :
  let vq := eval (get_aitum_vertical_video E) w in
  let w1 := exec (get_aitum_vertical_video E) w in
  let cv := if HAVE_OBS_CANVAS_API E
            then canvas_tier_video (env_canvases E (tick w1)) else None in
  exists v t evs lg cpart mpart,
    vertical_output_start_video E w = (Some v, advance t evs lg w) /\
    evs = events (get_aitum_vertical_video E) w ++ cpart ++ mpart /\
    Forall (fun e => is_canvas_event e = true /\ is_main_video_event e = false) cpart /\
    match vq with
    | Some v0 => v = v0 /\ cpart = [] /\ mpart = []
    | None =>
      (if HAVE_OBS_CANVAS_API E
       then EvGetCanvases (length (env_canvases E (tick w1))) ∈ cpart
       else cpart = []) /\
      match cv with
      | Some v1 => v = v1 /\ mpart = []
      | None => mpart = [EvGetVideo v]
      end
    end.
Proof.
  cbn zeta. unfold vertical_output_start_video, bind. cbn zeta.
  rewrite vendor_run. cbn [fst snd].
  destruct (eval (get_aitum_vertical_video E) w) as [v0|] eqn:Hvq.
  - exists v0. eexists _, _, _, [], []. split; [|by rewrite !app_nil_r].
    unfold start_video_canvas, start_video_main. cbn.
    by destruct (HAVE_OBS_CANVAS_API E).
  - match goal with |- context [start_video_canvas E None ?w0] =>
      destruct (canvas_run w0) as (t & cpart & lg & -> & Hall & Hcp) end.
    cbn [fst snd advance tick] in *.
    destruct (if HAVE_OBS_CANVAS_API E then _ else None) as [v1|] eqn:Hcv.
    + exists v1. eexists _, _, _, cpart, []. cbn [start_video_main non_null negb ret].
      rewrite advance_advance, app_nil_r. split; [reflexivity|done].
    + rewrite main_run. eexists _, _, _, _, cpart, [_].
      rewrite !advance_advance. cbn [tick advance].
      split; [reflexivity|]. by rewrite app_assoc.
Qed.

Arguments vertical_output_start_video : simpl never.

(** Only the counter, the trace and the log move; the handle is never
    null; no call addresses an output. *)
Lemma start_video_frame w :
  exists v t evs lg,
    vertical_output_start_video E w = (Some v, advance t evs lg w) /\
    Forall (fun e => is_output_event e = false) evs.
Proof.
  destruct (start_video_run w) as (v & t & evs & lg & cpart & mpart & H & -> & Hc & Hm).
  exists v, t. do 2 eexists. split; [exact H|].
  rewrite vendor_events. apply Forall_app_2; [|apply Forall_app_2].
  - destruct (env_proc_handler E (tick w)); by repeat constructor.
  - eapply Forall_impl; [exact Hc|]. intros e [He _]. by destruct e.
  - destruct (eval (get_aitum_vertical_video E) w).
    + destruct Hm as (_ & _ & ->). constructor.
    + destruct Hm as [_ Hm]. destruct (if HAVE_OBS_CANVAS_API E then _ else None).
      * destruct Hm as [_ ->]. constructor.
      * rewrite Hm. by repeat constructor.
Qed.

Lemma vendor_events_tier w e :
  e ∈ events (get_aitum_vertical_video E) w ->
  is_canvas_event e = false /\ is_main_video_event e = false.
Proof.
  rewrite vendor_events. destruct (env_proc_handler E (tick w)); intros He;
    repeat (apply elem_of_cons in He as [->|He]; [done|]);
    by apply elem_of_nil in He.
Qed.

(** *** start *)

Ltac all_outputs :=
  cbn;
  repeat first
    [ apply Forall_nil_2
    | apply Forall_cons_2; [done|]
    | match goal with H : Forall _ ?l |- Forall _ ?l =>
        eapply Forall_impl; [exact H | by intros []] end ].

Lemma start_none w :
  output (vctx w) = None ->
  silent (exec (vertical_output_start E) w) = silent w.
Proof.
  destruct w as [[r n g e o] cfg outs nx tk tr lg]. cbn. intros ->. reflexivity.
Qed.

(** [vertical_output_start] on an output [h], in closed form. *)
Lemma start_run w h :
  output (vctx w) = Some h ->
  exists v a r t pre lg,
    exec (vertical_output_start E) w =
      {| vctx :=
           {| is_running := started r;
              ndi_name := ndi_name (vctx w);
              ndi_groups := ndi_groups (vctx w);
              last_error :=
                match r with
                | StartOk => ""
                | StartRefused msg => QString (outputs w !! h ≫= λ _, msg)
                end;
              output := Some h |};
         config := config w;
         outputs := alter (out_after_start v a r) h (outputs w);
         next_output := next_output w;
         tick := t;
         trace :=
           trace w ++ pre ++
           [EvGetAudio a; EvOutputSetMedia (Some h) (Some v) (Some a);
            EvOutputStart (Some h) (started r)] ++
           match r with
           | StartOk => []
           | StartRefused msg =>
             [EvOutputGetLastError (Some h) (outputs w !! h ≫= λ _, msg);
              EvOutputStop (Some h)]
           end;
         log := log w ++ lg |} /\
    Forall (fun e => is_start_event e = false) pre.
Proof.
  destruct w as [[r n g e o] cfg outs nx tk tr lg]. cbn. intros ->.
  run. destruct r; cbn.
  all: match goal with |- context [vertical_output_start_video E ?w0] =>
         destruct (start_video_frame w0) as (v & t & evs & lg' & -> & Hevs) end.
  all: cbn; destruct (env_output_start E (S t)) as [|msg] eqn:Hst; cbn.
  all: rewrite ?lookup_alter_eq; destruct (outs !! h) as [x|] eqn:Hx; cbn.
  all: exists v, (env_audio E t).
  1-2: exists StartOk. 3-4: exists (StartRefused msg).
  5-6: exists StartOk. 7-8: exists (StartRefused msg).
  all: eexists.
  1-4: exists ([EvOutputSetMedia (Some h) None None; EvOutputStop (Some h)] ++ evs).
  5-8: exists evs.
  all: eexists; (split; [|all_outputs]).
  all: cbn; rewrite ?alter_alter_eq, <- ?app_assoc; cbn; f_equal.
Qed.

Lemma start_event_unique (pre tl : list event) h v a c o b :
  Forall (fun e => is_start_event e = false) pre ->
  Forall (fun e => is_start_event e = false) tl ->
  EvOutputStart o b ∈
    pre ++ [EvGetAudio a; EvOutputSetMedia (Some h) (Some v) (Some a);
            EvOutputStart (Some h) c] ++ tl ->
  o = Some h /\ b = c.
Proof.
  intros Hpre Htl. rewrite !elem_of_app, !elem_of_cons.
  intros [Hin|[[?|[?|[[= -> ->]|Hin]]]|Hin]]; try done.
  - by apply (proj1 (Forall_forall _ _) Hpre) in Hin.
  - by apply elem_of_nil in Hin.
  - by apply (proj1 (Forall_forall _ _) Htl) in Hin.
Qed.

(** What a call of [vertical_output_start] on an output [h] leaves behind,
    by the answer [b] the start request got. *)
Lemma start_outcome_cases w h b :
  output (vctx w) = Some h ->
  EvOutputStart (Some h) b ∈ events (vertical_output_start E) w ->
  let w' := exec (vertical_output_start E) w in
  is_running (vctx w') = b /\
  ndi_name (vctx w') = ndi_name (vctx w) /\
  ndi_groups (vctx w') = ndi_groups (vctx w) /\
  output (vctx w') = Some h /\
  last_error (vctx w') =
    (if b then "" else QString (outputs w' !! h ≫= out_last_error)) /\
  exists v a pre,
    events (vertical_output_start E) w =
      pre ++ [EvOutputSetMedia (Some h) (Some v) (Some a); EvOutputStart (Some h) b] ++
      (if b then []
       else [EvOutputGetLastError (Some h) (outputs w' !! h ≫= out_last_error);
             EvOutputStop (Some h)]) /\
    (forall x, outputs w' !! h = Some x ->
       out_video x = Some v /\ out_audio x = Some a /\ out_active x = b) /\
    (is_Some (outputs w !! h) -> is_Some (outputs w' !! h)).
Proof.
  intros Ho Hb. destruct (start_run w h Ho) as (v & a & r & t & pre & lg & Hw & Hpre).
  assert (Ht : trace (exec (vertical_output_start E) w) = trace w ++ pre ++
     [EvGetAudio a; EvOutputSetMedia (Some h) (Some v) (Some a);
      EvOutputStart (Some h) (started r)] ++
     match r with
     | StartOk => []
     | StartRefused msg =>
       [EvOutputGetLastError (Some h) (outputs w !! h ≫= λ _, msg);
        EvOutputStop (Some h)]
     end) by (by rewrite Hw).
  rewrite (events_of_trace _ _ _ Ht) in *.
  assert (b = started r) as ->.
  { eapply start_event_unique; [exact Hpre| |exact Hb].
    destruct r; by repeat constructor. }
  cbn zeta. rewrite Hw. cbn.
  rewrite lookup_alter_eq.
  assert (Hm : forall msg,
    ((out_after_start v a (StartRefused msg) <$> (outputs w !! h)) : option obs_output)
      ≫= out_last_error
    = (outputs w !! h) ≫= (λ _, msg)) by (intros; by destruct (outputs w !! h)).
  repeat split.
  - destruct r; cbn; [done|]. by rewrite Hm.
  - exists v, a, (pre ++ [EvGetAudio a]). split.
    + rewrite <- app_assoc. destruct r; cbn; [done|]. by rewrite Hm.
    + split.
      * intros x. destruct (outputs w !! h); cbn; [|done]. by intros [= <-].
      * intros [x ->]. by eexists.
Qed.

(** *** init *)

Arguments vertical_output_start : simpl never.

(** Like [run], with [vertical_output_start] left folded. *)
Ltac run_init :=
  unfold events, exec, eval,
    vertical_output_init, vertical_output_deinit, vertical_output_stop,
    obs_output_create, obs_output_stop, obs_output_release,
    obs_output_set_media, obs_output_get_signal_handler,
    signal_handler_connect, signal_handler_disconnect, bind, ret;
  cbn.

Lemma deinit_keeps w :
  config (exec vertical_output_deinit w) = config w /\
  next_output (exec vertical_output_deinit w) = next_output w /\
  tick (exec vertical_output_deinit w) = tick w.
Proof.
  destruct w as [[r n g e o] cfg outs nx tk tr lg]. by destruct o, r.
Qed.

Lemma connect_both :
  connect_signal "stop" on_vertical_output_stopped
    (connect_signal "start" on_vertical_output_started []) =
  [("start", on_vertical_output_started); ("stop", on_vertical_output_stopped)].
Proof. reflexivity. Qed.

(** [vertical_output_init], by the configuration and by what
    [obs_output_create] answers. *)
Lemma init_run w :
  let c := config w in
  let w1 := exec vertical_output_deinit w in
  let w' := exec (vertical_output_init E) w in
  let h := next_output w in
  if negb (VerticalOutputEnabled c) || isEmpty (VerticalOutputName c) then
    silent w' = silent w1
  else if env_output_create E (tick w) then
    exists wm,
      w' = exec (obs_log LOG_DEBUG "-vertical_output_init()" [])
             (exec (vertical_output_start E) wm) /\
      vctx wm = {| is_running := is_running (vctx w1);
                   ndi_name := VerticalOutputName c;
                   ndi_groups := VerticalOutputGroups c;
                   last_error := last_error (vctx w);
                   output := Some h |} /\
      config wm = c /\
      outputs wm = <[h := init_output c]> (outputs w1) /\
      next_output wm = S h /\
      trace wm = trace w1 ++
        [EvOutputCreate "ndi_output" "NDI Vertical Output" (init_settings c) (Some h);
         EvGetSignalHandler (Some h);
         EvSignalConnect (Some h) "start" on_vertical_output_started;
         EvSignalConnect (Some h) "stop" on_vertical_output_stopped]
  else
    silent w' =
    silent (advance (S (tick w))
              [EvOutputCreate "ndi_output" "NDI Vertical Output" (init_settings c) None]
              [] w1).
Proof.
  destruct w as [[r n g e o] [en nm gr] outs nx tk tr lg].
  cbn zeta. cbn [config VerticalOutputEnabled VerticalOutputName VerticalOutputGroups].
  destruct en; cbn [negb orb]; [destruct nm as [|c0 nm]; cbn [isEmpty]|].
  - run_init. by destruct o, r.
  - cbn [next_output tick]. destruct (env_output_create E tk) eqn:Hc.
    + destruct o as [h0|], r; run_init; unfold ask; cbn; rewrite Hc; cbn.
      all: match goal with |- context [vertical_output_start E ?w0] => exists w0 end.
      all: split; [by destruct (vertical_output_start E _)|].
      all: cbn; rewrite !alter_insert_eq; cbn; rewrite connect_both, <- ?app_assoc.
      all: done.
    + destruct o as [h0|], r; run_init; unfold ask; cbn; rewrite Hc; cbn.
      all: unfold silent, advance; cbn; by rewrite <- ?app_assoc.
  - run_init. by destruct o, r.
Qed.

(** *** The invariant *)

Lemma inv_silent w1 w2 : silent w1 = silent w2 -> vctx_inv w1 -> vctx_inv w2.
Proof.
  intros (Hv & _ & Ho & Hn & _ & _)%silent_eq. unfold vctx_inv.
  by rewrite Hv, Ho, Hn.
Qed.

Lemma inv_world0 c : vctx_inv (world0 c).
Proof.
  repeat split; try done.
  - intros h [x Hx]. cbn in Hx. by rewrite lookup_empty in Hx.
Qed.

Lemma stop_inv w : vctx_inv w -> vctx_inv (exec vertical_output_stop w).
Proof.
  destruct (is_running (vctx w)) eqn:Hr.
  - intros (H1 & H2 & H3). apply (inv_silent _ _ (eq_sym (stop_running w Hr))).
    destruct w as [[r n g e o] cfg outs nx tk tr lg]. cbn in *. subst r.
    destruct o as [h|]; [|by destruct H1].
    destruct (H2 h eq_refl) as (x & Hx & _). unfold vctx_inv. run.
    repeat split; try done.
    + intros h' [= <-]. rewrite !lookup_alter_eq, Hx. cbn. by eexists.
    + intros k Hk. apply H3. by rewrite !lookup_alter_is_Some in Hk.
  - apply inv_silent. symmetry. by apply stop_idle.
Qed.

Lemma deinit_inv w : vctx_inv w -> vctx_inv (exec vertical_output_deinit w).
Proof.
  intros (H1 & H2 & H3). unfold vctx_inv.
  destruct (deinit_keeps w) as (_ & -> & _). rewrite deinit_vctx.
  destruct w as [[r n g e o] cfg outs nx tk tr lg]. cbn in *.
  destruct o as [h|]; cbn.
  - repeat split; try done.
    intros k Hk. apply H3. destruct r; cbn in Hk;
      by rewrite !lookup_alter_is_Some in Hk.
  - destruct (H1 eq_refl) as (-> & -> & ->). repeat split; try done.
Qed.

Lemma start_inv w : vctx_inv w -> vctx_inv (exec (vertical_output_start E) w).
Proof.
  destruct (output (vctx w)) as [h|] eqn:Ho.
  - intros (H1 & H2 & H3).
    destruct (start_run w h Ho) as (v & a & r & t & pre & lg & -> & _).
    destruct (H2 h Ho) as (x & Hx & _).
    repeat split; try done; cbn.
    + intros h' [= <-]. rewrite lookup_alter_eq, Hx. cbn.
      eexists. split; [done|]. by eauto.
    + intros k Hk. apply H3. by rewrite lookup_alter_is_Some in Hk.
  - apply inv_silent. symmetry. by apply start_none.
Qed.

Lemma init_inv w : vctx_inv w -> vctx_inv (exec (vertical_output_init E) w).
Proof.
  intros Hw. pose proof (deinit_inv w Hw) as Hd.
  pose proof (init_run w) as Hi. cbn zeta in Hi.
  destruct (negb _ || _).
  - by apply (inv_silent _ _ (eq_sym Hi)).
  - destruct (env_output_create E (tick w)).
    + destruct Hi as (wm & -> & Hv & _ & Ho & Hn & _).
      apply (inv_silent (exec (vertical_output_start E) wm)); [done|].
      apply start_inv. destruct Hd as (_ & _ & Hd3).
      destruct (deinit_keeps w) as (_ & Hnx & _). rewrite Hnx in Hd3.
      unfold vctx_inv. rewrite Hv, Ho, Hn. cbn. repeat split; try done.
      * intros h [= <-]. rewrite lookup_insert_eq. eexists. split; [done|].
        rewrite deinit_vctx. destruct Hw as (Hw1 & _).
        destruct (output (vctx w)); cbn; [done|].
        destruct (Hw1 eq_refl) as (-> & _). done.
      * intros k [Hk|Hk]%lookup_insert_is_Some; [lia|].
        destruct Hk as [_ Hk]. apply Hd3 in Hk. lia.
    + apply (inv_silent _ _ (eq_sym Hi)). exact Hd.
Qed.

Lemma is_supported_inv w :
  vctx_inv w -> vctx_inv (exec (vertical_output_is_supported E) w).
Proof.
  intros (H1 & H2 & H3). unfold vctx_inv. rewrite is_supported_vctx.
  split; [done|]. run.
  destruct (env_output_create E (tick w)); cbn; [|done].
  assert (Hfresh : forall k, is_Some (outputs w !! k) -> next_output w <> k)
    by (intros k Hk%H3; lia).
  destruct (env_output_start E (S (tick w))); cbn.
  all: split;
    [intros h Hh; destruct (H2 h Hh) as (x & Hx & Hr); exists x;
     rewrite !lookup_alter_ne, lookup_insert_ne by (apply Hfresh; by eexists); done
    |intros k; rewrite !lookup_alter_is_Some;
     intros [Hk|[_ Hk]]%lookup_insert_is_Some; [lia|apply H3 in Hk; lia]].
Qed.

Lemma run_callbacks_keeps signal l w :
  let w' := exec (run_callbacks signal l) w in
  vctx w' = vctx w /\ outputs w' = outputs w /\ next_output w' = next_output w /\
  tick w' = tick w /\ trace w' = trace w.
Proof.
  revert w. induction l as [|[s cb] l IH]; intros w; [done|].
  cbn [run_callbacks]. rewrite exec_bind. cbn zeta in *.
  destruct (IH (exec (if String.eqb s signal then run_callback cb else ret tt) w))
    as (-> & -> & -> & -> & ->).
  destruct (String.eqb s signal); [|done]. by destruct cb.
Qed.

Lemma signal_inv o signal w :
  vctx_inv w -> vctx_inv (exec (signal_handler_signal o signal) w).
Proof.
  unfold vctx_inv, signal_handler_signal. rewrite exec_bind.
  destruct (eval (lookup_output o) w) as [x|]; [|done].
  destruct (run_callbacks_keeps signal (out_signals x) (exec (lookup_output o) w))
    as (-> & -> & -> & _). done.
Qed.

Lemma call_inv c w : vctx_inv w -> vctx_inv (exec (run_call E c) w).
Proof.
  destruct c; cbn [run_call].
  - apply init_inv.
  - apply start_inv.
  - apply stop_inv.
  - apply deinit_inv.
  - rewrite exec_bind. apply is_supported_inv.
  - done.
  - apply signal_inv.
  - done.
Qed.

(** Every reachable state satisfies the invariant. *)
Lemma reachable_inv w : reachable E w -> vctx_inv w.
Proof.
  intros (c & l & ->). generalize (inv_world0 c). generalize (world0 c).
  induction l as [|x l IH]; intros w Hw; [done|].
  cbn [run_calls]. rewrite exec_bind. apply IH, call_inv, Hw.
Qed.

Lemma start_keeps w :
  let w' := exec (vertical_output_start E) w in
  ndi_name (vctx w') = ndi_name (vctx w) /\
  ndi_groups (vctx w') = ndi_groups (vctx w) /\
  output (vctx w') = output (vctx w).
Proof.
  cbn zeta. destruct (output (vctx w)) as [h|] eqn:Ho.
  - destruct (start_run w h Ho) as (v & a & r & t & pre & lg & -> & _). by cbn.
  - pose proof (start_none w Ho) as (Hv & _)%silent_eq. by rewrite Hv, Ho.
Qed.

Lemma trace_events {A} (m : M A) w evs :
  trace (exec m w) = trace w ++ evs -> trace (exec m w) = trace w ++ events m w.
Proof. intros H. by rewrite (events_of_trace _ _ _ H). Qed.

Lemma start_trace w :
  trace (exec (vertical_output_start E) w) =
  trace w ++ events (vertical_output_start E) w.
Proof.
  destruct (output (vctx w)) as [h|] eqn:Ho.
  - destruct (start_run w h Ho) as (v & a & r & t & pre & lg & Hw & _).
    eapply trace_events. by rewrite Hw.
  - pose proof (start_none w Ho) as Hs. rewrite (silent_events _ _ Hs).
    apply silent_eq in Hs as (_&_&_&_&_&->). by rewrite app_nil_r.
Qed.

Lemma deinit_trace w :
  trace (exec vertical_output_deinit w) = trace w ++ events vertical_output_deinit w.
Proof.
  destruct w as [[r n g e o] cfg outs nx tk tr lg].
  destruct o, r; eapply trace_events; cbn; rewrite <- ?app_assoc; try done.
  all: by rewrite app_nil_r.
Qed.

Lemma init_settings_lookup c :
  init_settings c !! "ndi_name" = Some (DataString (VerticalOutputName c)) /\
  init_settings c !! "ndi_groups" = Some (DataString (VerticalOutputGroups c)) /\
  init_settings c !! "uses_audio" = Some (DataBool true) /\
  dom (init_settings c) = {["ndi_name"; "ndi_groups"; "uses_audio"]}.
Proof.
  unfold init_settings, obs_data_set_bool, obs_data_set_string, obs_data_create.
  split; [|split; [|split]].
  - rewrite !lookup_insert_ne by done. apply lookup_insert_eq.
  - rewrite lookup_insert_ne by done. apply lookup_insert_eq.
  - by rewrite lookup_insert_eq.
  - rewrite !dom_insert_L, dom_empty_L. set_solver.
Qed.

(** *** The claims *)

(** C1 (video source tiers, amended).  The handle is never null.  The
    calls of the resolution are those of the vendor query, then calls of
    the canvas tier, then at most the one main-video call.  If the vendor
    query returns a handle, that handle is used and neither the canvas
    tier nor the main video is consulted.  If it returns none and the
    canvas tier yields a video (canvas API compiled in; the first canvas
    named exactly "Aitum Vertical" could be referenced and has a video),
    that video is used and the main video is not consulted.  In every other
    case the main program video is fetched, last, and used. *)
Theorem start_video_tiers_in_order w :
  let vq := eval (get_aitum_vertical_video E) w in
  let w1 := exec (get_aitum_vertical_video E) w in
  let cl := env_canvases E (tick w1) in
  let res := eval (vertical_output_start_video E) w in
  let evs := events (vertical_output_start_video E) w in
  is_Some res /\
  (exists cpart mpart,
     evs = events (get_aitum_vertical_video E) w ++ cpart ++ mpart /\
     Forall (fun e => is_canvas_event e = true) cpart /\
     Forall (fun e => is_main_video_event e = true) mpart) /\
  (forall v0, vq = Some v0 ->
     res = Some v0 /\
     forall e, e ∈ evs -> is_canvas_event e = false /\ is_main_video_event e = false) /\
  (forall v1, vq = None -> HAVE_OBS_CANVAS_API E = true ->
     canvas_tier_video cl = Some v1 ->
     res = Some v1 /\ EvGetCanvases (length cl) ∈ evs /\
     forall e, e ∈ evs -> is_main_video_event e = false) /\
  (vq = None -> HAVE_OBS_CANVAS_API E = false \/ canvas_tier_video cl = None ->
     exists v, res = Some v /\ last evs = Some (EvGetVideo v) /\
       (HAVE_OBS_CANVAS_API E = false ->
        forall e, e ∈ evs -> is_canvas_event e = false)).
Proof.
  cbn zeta.
  destruct (start_video_run w) as (v & t & evs & lg & cpart & mpart & Hrun & Hevs & Hc & Hcase).
  assert (Hres : eval (vertical_output_start_video E) w = Some v)
    by (unfold eval; by rewrite Hrun).
  assert (Hev : events (vertical_output_start_video E) w = evs)
    by (apply events_of_trace; unfold exec; by rewrite Hrun).
  rewrite Hres, Hev. clear Hrun Hres Hev. subst evs.
  assert (Hcm : forall e, e ∈ cpart -> is_main_video_event e = false).
  { intros e He. by apply (proj1 (Forall_forall _ _) Hc) in He as [_ ?]. }
  split; [by eexists|]. split; [|split; [|split]].
  - exists cpart, mpart. split; [done|]. split.
    + eapply Forall_impl; [exact Hc|]. by intros ? [? ?].
    + destruct (eval (get_aitum_vertical_video E) w).
      * destruct Hcase as (_ & _ & ->). constructor.
      * destruct Hcase as [_ Hcase].
        destruct (if HAVE_OBS_CANVAS_API E then _ else None).
        -- destruct Hcase as [_ ->]. constructor.
        -- rewrite Hcase. by repeat constructor.
  - intros v0 Hvq. rewrite Hvq in Hcase. destruct Hcase as (-> & -> & ->).
    split; [done|]. intros e. rewrite !app_nil_r. apply vendor_events_tier.
  - intros v1 Hvq Hhave Hcv. rewrite Hvq, Hhave, Hcv in Hcase.
    destruct Hcase as (Hgc & -> & ->). split; [done|]. split.
    + apply elem_of_app. right. by rewrite app_nil_r.
    + intros e. rewrite app_nil_r. intros [He|He]%elem_of_app.
      * by apply vendor_events_tier in He as [_ ?].
      * by apply Hcm.
  - intros Hvq Hno. rewrite Hvq in Hcase. destruct Hcase as [Hcp Hcase].
    assert (Hcv : (if HAVE_OBS_CANVAS_API E
                   then canvas_tier_video
                          (env_canvases E (tick (exec (get_aitum_vertical_video E) w)))
                   else None) = None).
    { destruct Hno as [-> | Hno]; [done|]. rewrite Hno. by destruct (HAVE_OBS_CANVAS_API E). }
    rewrite Hcv in Hcase. subst mpart. exists v. split; [done|]. split.
    + by rewrite !app_assoc, last_snoc.
    + intros Hhave. rewrite Hhave in Hcp. subst cpart. intros e.
      cbn. intros [He|He]%elem_of_app.
      * by apply vendor_events_tier in He as [? _].
      * apply list_elem_of_singleton in He as ->. done.
Qed.

(** C2 (failed start, amended).  When the start request on the session is
    refused, [is_running] is false afterwards, [last_error] holds the
    session's error text, and the refusal is followed by reading that text
    and by a stop request, which leaves the session inactive.  The video
    and audio source bound for the attempt stay bound to the session. *)
Theorem start_failure_keeps_error_and_media w h :
  output (vctx w) = Some h ->
  is_Some (outputs w !! h) ->
  EvOutputStart (Some h) false ∈ events (vertical_output_start E) w ->
  let w' := exec (vertical_output_start E) w in
  is_running (vctx w') = false /\
  exists x v a pre,
    outputs w' !! h = Some x /\
    last_error (vctx w') = QString (out_last_error x) /\
    events (vertical_output_start E) w =
      pre ++ [EvOutputSetMedia (Some h) (Some v) (Some a);
              EvOutputStart (Some h) false;
              EvOutputGetLastError (Some h) (out_last_error x);
              EvOutputStop (Some h)] /\
    out_active x = false /\
    out_video x = Some v /\ out_audio x = Some a.
Proof.
  intros Ho Hh Hb.
  destruct (start_outcome_cases w h false Ho Hb)
    as (Hrun & _ & _ & _ & Herr & v & a & pre & Hev & Hx & Hsome).
  cbn zeta. split; [done|].
  destruct (Hsome Hh) as [x Hl]. destruct (Hx x Hl) as (Hv & Ha & Hact).
  exists x, v, a, pre. rewrite Hl in Herr, Hev. done.
Qed.

(** C3 (last_error, amended).  A start call on a session makes a start
    request.  If it is granted, [last_error] is empty afterwards; if it is
    refused, [last_error] is the session's error text, whatever that is.
    A start call without a session makes no request and leaves
    [last_error] alone, and so do [stop], [deinit], the capability probe,
    and an [init] in which no start request is made. *)
Theorem last_error_follows_start w :
  (forall h, output (vctx w) = Some h ->
     exists b, EvOutputStart (Some h) b ∈ events (vertical_output_start E) w) /\
  (forall h, output (vctx w) = Some h ->
     EvOutputStart (Some h) true ∈ events (vertical_output_start E) w ->
     last_error (vctx (exec (vertical_output_start E) w)) = "") /\
  (forall h, output (vctx w) = Some h ->
     EvOutputStart (Some h) false ∈ events (vertical_output_start E) w ->
     last_error (vctx (exec (vertical_output_start E) w)) =
       QString (outputs (exec (vertical_output_start E) w) !! h ≫= out_last_error)) /\
  (output (vctx w) = None ->
     last_error (vctx (exec (vertical_output_start E) w)) = last_error (vctx w) /\
     events (vertical_output_start E) w = []) /\
  last_error (vctx (exec vertical_output_stop w)) = last_error (vctx w) /\
  last_error (vctx (exec vertical_output_deinit w)) = last_error (vctx w) /\
  last_error (vctx (exec (vertical_output_is_supported E) w)) = last_error (vctx w) /\
  ((forall o b, EvOutputStart o b ∉ events (vertical_output_init E) w) ->
   last_error (vctx (exec (vertical_output_init E) w)) = last_error (vctx w)).
Proof.
  split; [|split; [|split; [|split; [|split; [|split; [|split]]]]]].
  - intros h Ho. destruct (start_run w h Ho) as (v & a & r & t & pre & lg & Hw & _).
    exists (started r). apply (f_equal trace) in Hw. cbn in Hw.
    rewrite (events_of_trace _ _ _ Hw). in_trace.
  - intros h Ho Hb. by destruct (start_outcome_cases w h true Ho Hb) as (_&_&_&_&->&_).
  - intros h Ho Hb. by destruct (start_outcome_cases w h false Ho Hb) as (_&_&_&_&->&_).
  - intros Ho. pose proof (start_none w Ho) as Hs. split.
    + by apply silent_eq in Hs as (-> & _).
    + by apply silent_events.
  - destruct w as [[r n g e o] cfg outs nx tk tr lg]. by destruct r, o.
  - rewrite deinit_vctx. by destruct (output (vctx w)).
  - by rewrite is_supported_vctx.
  - intros Hno. pose proof (init_run w) as Hi. cbn zeta in Hi.
    assert (Hd : last_error (vctx (exec vertical_output_deinit w)) =
                 last_error (vctx w))
      by (rewrite deinit_vctx; by destruct (output (vctx w))).
    destruct (negb _ || _).
    { apply silent_eq in Hi as (-> & _). exact Hd. }
    destruct (env_output_create E (tick w)).
    + destruct Hi as (wm & Hw' & Hv & _ & _ & _ & Ht). exfalso.
      destruct (start_run wm (next_output w)) as (v & a & r & t & pre & lg & Hs & _);
        [by rewrite Hv|].
      apply (Hno (Some (next_output w)) (started r)).
      assert (Htr : trace (exec (vertical_output_init E) w) =
                    trace (exec (vertical_output_start E) wm))
        by (by rewrite Hw').
      rewrite Hs in Htr. cbn in Htr. rewrite Ht, deinit_trace, <- !app_assoc in Htr.
      rewrite (events_of_trace _ _ _ Htr). in_trace.
    + apply silent_eq in Hi as (-> & _). exact Hd.
Qed.

(** C4 (teardown order).  On an output [h], the calls [deinit] makes end
    with: disconnect "start", disconnect "stop", release; nothing before
    them is a release, so every release in the sequence has both
    disconnects strictly before it.  The released object has neither
    callback connected.  With no output [deinit] makes no call. *)
Theorem deinit_unsubscribes_before_release w :
  let evs := events vertical_output_deinit w in
  match output (vctx w) with
  | Some h =>
    (exists pre,
       evs = pre ++ [EvSignalDisconnect (Some h) "start" on_vertical_output_started;
                     EvSignalDisconnect (Some h) "stop" on_vertical_output_stopped;
                     EvOutputRelease (Some h)] /\
       forall o, EvOutputRelease o ∉ pre) /\
    (forall i o, evs !! i = Some (EvOutputRelease o) ->
       exists j k, j < k /\ k < i /\
         evs !! j = Some (EvSignalDisconnect o "start" on_vertical_output_started) /\
         evs !! k = Some (EvSignalDisconnect o "stop" on_vertical_output_stopped)) /\
    (forall x, outputs (exec vertical_output_deinit w) !! h = Some x ->
       out_released x = true /\
       (("start", on_vertical_output_started) ∉ out_signals x) /\
       (("stop", on_vertical_output_stopped) ∉ out_signals x))
  | None => evs = []
  end.
Proof.
  cbn zeta. destruct (output (vctx w)) as [h|] eqn:Ho.
  - rewrite (deinit_events w h Ho). split; [|split].
    + destruct (is_running (vctx w)).
      * eexists [_; _; _; _]. split; [reflexivity|].
        intros o Hin. repeat (apply elem_of_cons in Hin as [Hin|Hin]; [discriminate|]).
        by apply elem_of_nil in Hin.
      * eexists [_; _]. split; [reflexivity|].
        intros o Hin. repeat (apply elem_of_cons in Hin as [Hin|Hin]; [discriminate|]).
        by apply elem_of_nil in Hin.
    + intros i o Hi. destruct (is_running (vctx w)); cbn in Hi.
      * do 7 (destruct i as [|i]; try discriminate Hi).
        injection Hi as <-. exists 4, 5. repeat split; lia.
      * do 5 (destruct i as [|i]; try discriminate Hi).
        injection Hi as <-. exists 2, 3. repeat split; lia.
    + intros x Hx. destruct (deinit_released w h x Ho Hx) as (?&?&?&?&?). done.
  - by apply deinit_none_events.
Qed.

(** C5 (init).  In any reachable state: with the feature disabled or the
    name empty, [init] does what [deinit] does and nothing more, and ends
    with no output and [is_running] false.  Otherwise it first does what
    [deinit] does, then asks for an output with the settings ndi_name,
    ndi_groups and uses_audio = true (and no other).  If one is created,
    [init] connects the "start" and the "stop" callback, stores name and
    groups, and ends with a call of [start] on that state, after which the
    context still holds that output, name and groups; if none is created,
    it makes no further call and ends with no output and [is_running]
    false. *)
Theorem init_behaviour w :
  reachable E w ->
  let c := config w in
  let w1 := exec vertical_output_deinit w in
  let w' := exec (vertical_output_init E) w in
  (VerticalOutputEnabled c = false \/ VerticalOutputName c = "" ->
   silent w' = silent w1 /\
   events (vertical_output_init E) w = events vertical_output_deinit w /\
   output (vctx w') = None /\ is_running (vctx w') = false) /\
  (VerticalOutputEnabled c = true -> VerticalOutputName c <> "" ->
   exists res rest,
     events (vertical_output_init E) w =
       events vertical_output_deinit w ++
       EvOutputCreate "ndi_output" "NDI Vertical Output" (init_settings c) res :: rest /\
     match res with
     | Some h =>
       exists wm,
         rest = [EvGetSignalHandler (Some h);
                 EvSignalConnect (Some h) "start" on_vertical_output_started;
                 EvSignalConnect (Some h) "stop" on_vertical_output_stopped] ++
                events (vertical_output_start E) wm /\
         silent w' = silent (exec (vertical_output_start E) wm) /\
         vctx wm = {| is_running := false;
                      ndi_name := VerticalOutputName c;
                      ndi_groups := VerticalOutputGroups c;
                      last_error := last_error (vctx w);
                      output := Some h |} /\
         outputs wm !! h = Some (init_output c) /\
         ndi_name (vctx w') = VerticalOutputName c /\
         ndi_groups (vctx w') = VerticalOutputGroups c /\
         output (vctx w') = Some h
     | None => rest = [] /\ output (vctx w') = None /\ is_running (vctx w') = false
     end) /\
  init_settings c !! "ndi_name" = Some (DataString (VerticalOutputName c)) /\
  init_settings c !! "ndi_groups" = Some (DataString (VerticalOutputGroups c)) /\
  init_settings c !! "uses_audio" = Some (DataBool true) /\
  dom (init_settings c) = {["ndi_name"; "ndi_groups"; "uses_audio"]}.
Proof.
  intros Hw%reachable_inv. cbn zeta.
  assert (Hd : output (vctx (exec vertical_output_deinit w)) = None /\
               is_running (vctx (exec vertical_output_deinit w)) = false).
  { rewrite deinit_vctx. destruct Hw as (H1 & _).
    destruct (output (vctx w)) eqn:Ho; [done|]. by destruct (H1 eq_refl) as (-> & _). }
  destruct Hd as [Hdo Hdr].
  pose proof (init_run w) as Hi. cbn zeta in Hi.
  split; [|split; [|apply init_settings_lookup]].
  - intros Hoff.
    assert (negb (VerticalOutputEnabled (config w)) ||
            isEmpty (VerticalOutputName (config w)) = true) as Hc.
    { destruct Hoff as [-> | ->]; [done|]. apply orb_true_r. }
    rewrite Hc in Hi. split; [done|].
    apply silent_eq in Hi as (Hv & _ & _ & _ & _ & Ht). rewrite Hv.
    split; [|done]. apply events_of_trace. by rewrite Ht, deinit_trace.
  - intros Hon Hname.
    assert (negb (VerticalOutputEnabled (config w)) ||
            isEmpty (VerticalOutputName (config w)) = false) as Hc.
    { rewrite Hon. cbn. destruct (VerticalOutputName (config w)); done. }
    rewrite Hc in Hi. destruct (env_output_create E (tick w)).
    + destruct Hi as (wm & Hw' & Hv & _ & Ho & _ & Ht).
      exists (Some (next_output w)). eexists. split; [|exists wm; split; [reflexivity|]].
      * apply events_of_trace. rewrite Hw'. cbn.
        rewrite start_trace, Ht, deinit_trace. by rewrite <- !app_assoc.
      * split; [by rewrite Hw'|]. rewrite Hv, Hdr, Ho. split; [done|].
        split; [apply lookup_insert_eq|].
        destruct (start_keeps wm) as (Hn & Hg & Hout). rewrite Hv in Hn, Hg, Hout.
        rewrite Hw'. by cbn.
    + exists None, []. apply silent_eq in Hi as (Hv & _ & _ & _ & _ & Ht).
      rewrite Hv. cbn. split; [|done].
      apply events_of_trace. rewrite Ht. cbn. by rewrite deinit_trace, <- app_assoc.
Qed.

(** C6 (state invariants).  After any run of calls from the state at
    module load (init, start, stop, deinit, and also the probe, signal
    deliveries and configuration changes): with no output nothing runs,
    and while [is_running] is set the context holds an output that has a
    video and an audio source bound. *)
Theorem context_invariants (c : Config) (l : list call) :
  let w := exec (run_calls E l) (world0 c) in
  (output (vctx w) = None -> is_running (vctx w) = false) /\
  (is_running (vctx w) = true ->
   exists h x, output (vctx w) = Some h /\ outputs w !! h = Some x /\
     is_Some (out_video x) /\ is_Some (out_audio x)).
Proof.
  cbn zeta. set (w := exec _ _).
  assert (Hw : vctx_inv w) by (apply reachable_inv; by exists c, l).
  destruct Hw as (H1 & H2 & _). split.
  - intros Ho. by destruct (H1 Ho).
  - intros Hr. destruct (output (vctx w)) as [h|] eqn:Ho.
    + destruct (H2 h eq_refl) as (x & Hx & Hb). destruct (Hb Hr). by exists h, x.
    + destruct (H1 eq_refl) as (Hf & _). congruence.
Qed.

(** C7 (stop when not running).  With [is_running] false, [stop] leaves
    the context (is_running, name, groups, last_error, output), the
    configuration and every host object as they were and makes no call
    into libobs at all, so none on the session: only log lines are
    written. *)
Theorem stop_when_not_running_changes_nothing w :
  is_running (vctx w) = false ->
  silent (exec vertical_output_stop w) = silent w /\
  vctx (exec vertical_output_stop w) = vctx w /\
  outputs (exec vertical_output_stop w) = outputs w /\
  events vertical_output_stop w = [].
Proof.
  intros H. pose proof (stop_idle w H) as Hs.
  split; [done|]. pose proof (silent_events _ _ Hs).
  apply silent_eq in Hs as (?&?&?&?&?&?). done.
Qed.

(** C8 (capability probe).  [is_supported] creates one output with the
    fixed probe settings and, when that succeeds, starts, stops and
    releases it, in this order; it answers true exactly when the output was
    created and its start succeeded.  The created object ends inactive and
    released on either outcome of the start.  The context is neither
    written nor read: the answer and the effect are the same whatever
    [vctx] holds. *)
Theorem is_supported_probe w :
  let w' := exec (vertical_output_is_supported E) w in
  let r := eval (vertical_output_is_supported E) w in
  (exists res ok,
     events (vertical_output_is_supported E) w =
       EvOutputCreate "ndi_output" "NDI Vertical Output" probe_settings res ::
       match res with
       | Some h => [EvOutputStart (Some h) ok; EvOutputStop (Some h);
                    EvOutputRelease (Some h)]
       | None => []
       end /\
     (r = true <-> is_Some res /\ ok = true) /\
     match res with
     | Some h => exists x, outputs w' !! h = Some x /\
                   out_active x = false /\ out_released x = true
     | None => outputs w' = outputs w
     end) /\
  vctx w' = vctx w /\
  (forall c,
     eval (vertical_output_is_supported E) (exec (put_vctx c) w) = r /\
     silent (exec (vertical_output_is_supported E) (exec (put_vctx c) w)) =
       silent (exec (put_vctx c) w')).
Proof.
  destruct w as [[r n g e o] cfg outs nx tk tr lg].
  cbn zeta. split; [|split].
  - run. destruct (env_output_create E tk); cbn.
    + destruct (env_output_start E (S tk)) as [|msg]; cbn.
      * exists (Some nx), true. rewrite <- !app_assoc, drop_app_length.
        split; [done|]. split; [by eauto|].
        rewrite !lookup_alter_eq, lookup_insert_eq. cbn. by eauto.
      * exists (Some nx), false. rewrite <- !app_assoc, drop_app_length.
        split; [done|]. split; [by split; [|intros [_ ?]]|].
        rewrite !lookup_alter_eq, lookup_insert_eq. cbn. by eauto.
    + exists None, false. rewrite drop_app_length.
      split; [done|]. split; [|done]. split; [done|]. by intros [[? ?] _].
  - apply is_supported_vctx.
  - intros c. run. destruct (env_output_create E tk); cbn; [|done].
    destruct (env_output_start E (S tk)); by cbn.
Qed.

(** C9 (deinit, amended).  In any reachable state, after [deinit] the
    output handle is null, [is_running] is false and name and groups are
    empty; [last_error] is left as it was. *)
Theorem deinit_clears_all_but_last_error w :
  reachable E w ->
  let w' := exec vertical_output_deinit w in
  output (vctx w') = None /\ is_running (vctx w') = false /\
  ndi_name (vctx w') = "" /\ ndi_groups (vctx w') = "" /\
  last_error (vctx w') = last_error (vctx w).
Proof.
  intros (H1 & _)%reachable_inv. cbn zeta. rewrite deinit_vctx.
  destruct (output (vctx w)) eqn:Ho; [done|]. by destruct (H1 eq_refl) as (-> & -> & ->).
Qed.

(** C10 (deinit is idempotent).  With no output, [deinit] changes nothing
    but the log and makes no call into libobs; a second [deinit] right
    after a first one is such a call, so two in a row leave the state of
    one. *)
Theorem deinit_idempotent w :
  (output (vctx w) = None ->
   silent (exec vertical_output_deinit w) = silent w /\
   events vertical_output_deinit w = []) /\
  silent (exec vertical_output_deinit (exec vertical_output_deinit w)) =
    silent (exec vertical_output_deinit w) /\
  events vertical_output_deinit (exec vertical_output_deinit w) = [].
Proof.
  split; [|split].
  - intros Ho. split; [by apply deinit_none | by apply deinit_none_events].
  - apply deinit_none, deinit_output.
  - apply deinit_none_events, deinit_output.
Qed.

End Properties.

(** ** Further properties *)

Section Further.

Variable E : Env.

(** Unfold the controller and the host functions it calls, then compute. *)
Ltac crank :=
  unfold events, logged, exec, eval,
    vertical_output_init, vertical_output_deinit, vertical_output_is_supported,
    vertical_output_start, vertical_output_stop, vertical_output_last_error,
    get_aitum_vertical_video, find_aitum_vertical_canvas,
    obs_output_create, obs_output_start, obs_output_stop, obs_output_release,
    obs_output_set_media, obs_output_get_last_error, obs_output_get_signal_handler,
    signal_handler_connect, signal_handler_disconnect,
    obs_get_proc_handler, proc_handler_call, obs_frontend_get_canvases,
    obs_frontend_canvas_list_free, obs_canvas_get_name, obs_canvas_get_ref,
    obs_canvas_get_video, obs_canvas_release, obs_get_video, obs_get_audio,
    bind, ret;
  cbn.

(** The events of a sequence are those of its parts, in order. *)
Lemma events_bind {A B} (m : M A) (k : A -> M B) w e1 e2 :
  trace (exec m w) = trace w ++ e1 ->
  trace (exec (k (eval m w)) (exec m w)) = trace (exec m w) ++ e2 ->
  events (bind m k) w = e1 ++ e2.
Proof.
  intros H1 H2. apply events_of_trace. rewrite exec_bind, H2, H1.
  by rewrite app_assoc.
Qed.

(** X1 (stop while running).  On a running output [stop] makes two calls,
    in this order: it detaches video and audio, then requests the stop.
    Afterwards [is_running] is false and the rest of the context is as it
    was; the output has no media and is inactive, its callbacks, error
    message and reference are untouched, and so is every other output. *)
Theorem stop_running_detaches_then_stops w h x :
  is_running (vctx w) = true ->
  output (vctx w) = Some h ->
  outputs w !! h = Some x ->
  let w' := exec vertical_output_stop w in
  events vertical_output_stop w =
    [EvOutputSetMedia (Some h) None None; EvOutputStop (Some h)] /\
  vctx w' = {| is_running := false; ndi_name := ndi_name (vctx w);
               ndi_groups := ndi_groups (vctx w);
               last_error := last_error (vctx w); output := Some h |} /\
  config w' = config w /\
  (exists x', outputs w' !! h = Some x' /\
     out_video x' = None /\ out_audio x' = None /\ out_active x' = false /\
     out_signals x' = out_signals x /\ out_released x' = out_released x /\
     out_last_error x' = out_last_error x /\ out_settings x' = out_settings x) /\
  (forall k, k <> h -> outputs w' !! k = outputs w !! k).
Proof.
  destruct w as [[r n g e o] cfg outs nx tk tr lg]. cbn. intros -> -> Hx.
  crank. split; [|split; [done|split; [done|split]]].
  - by rewrite <- app_assoc, drop_app_length.
  - rewrite !lookup_alter_eq, Hx. cbn. eexists. split; [done|]. done.
  - intros k Hk. by rewrite !lookup_alter_ne.
Qed.

(** The trace of [vertical_output_start] on an output, written out. *)
Lemma start_trace_shape w h :
  output (vctx w) = Some h ->
  exists res v a r msg,
    trace (exec (vertical_output_start E) w) =
      trace w ++
      (if is_running (vctx w)
       then [EvOutputSetMedia (Some h) None None; EvOutputStop (Some h)] else []) ++
      res ++
      [EvGetAudio a; EvOutputSetMedia (Some h) (Some v) (Some a);
       EvOutputStart (Some h) (started r)] ++
      (if started r then []
       else [EvOutputGetLastError (Some h) msg; EvOutputStop (Some h)]) /\
    Forall (fun e => is_output_event e = false) res /\
    is_running (vctx (exec (vertical_output_start E) w)) = started r.
Proof.
  destruct w as [[r n g e o] cfg outs nx tk tr lg]. cbn. intros ->.
  unfold exec, vertical_output_start, vertical_output_stop, obs_output_start,
    obs_output_stop, obs_output_set_media, obs_output_get_last_error, obs_get_audio,
    bind, ret; cbn.
  destruct r; cbn.
  all: match goal with |- context [vertical_output_start_video E ?w0] =>
         destruct (start_video_frame E w0) as (v & t & evs & lg' & -> & Hevs) end.
  all: cbn; destruct (env_output_start E (S t)) as [|msg] eqn:Hst; cbn.
  all: exists evs, v, (env_audio E t).
  1,3: exists StartOk, None.
  3,4: eexists (StartRefused msg), _.
  all: cbn; rewrite <- ?app_assoc; cbn; done.
Qed.

(** X2 (the calls of start).  On an output, [start] makes its calls in
    this order: if it was running, detach and stop; then the video source
    resolution, which addresses no output; then it fetches the audio,
    binds video and audio, both non-null, and requests the start once.  A
    granted request is the last call.  A refused one is followed by
    reading the error text and by a stop request.  [is_running] is the
    answer to the request. *)
Theorem start_call_sequence w h :
  output (vctx w) = Some h ->
  exists res v a b msg,
    events (vertical_output_start E) w =
      (if is_running (vctx w)
       then [EvOutputSetMedia (Some h) None None; EvOutputStop (Some h)] else []) ++
      res ++
      [EvGetAudio a; EvOutputSetMedia (Some h) (Some v) (Some a);
       EvOutputStart (Some h) b] ++
      (if b then []
       else [EvOutputGetLastError (Some h) msg; EvOutputStop (Some h)]) /\
    Forall (fun e => is_output_event e = false) res /\
    is_running (vctx (exec (vertical_output_start E) w)) = b.
Proof.
  intros Ho. destruct (start_trace_shape w h Ho) as (res & v & a & r & msg & Ht & Hres & Hr).
  exists res, v, a, (started r), msg. split; [|done].
  by apply events_of_trace.
Qed.

(** *** Every output is held or torn down *)

Lemma outputs_inv_silent w1 w2 : silent w1 = silent w2 -> outputs_inv w1 -> outputs_inv w2.
Proof.
  intros (Hv & _ & Ho & _)%silent_eq. unfold outputs_inv. by rewrite Hv, Ho.
Qed.

Lemma outputs_inv_alter w w' h f :
  outputs_inv w -> output (vctx w) = Some h ->
  outputs w' = alter f h (outputs w) -> output (vctx w') = Some h ->
  (forall x, held_output (is_running (vctx w)) x ->
             held_output (is_running (vctx w')) (f x)) ->
  outputs_inv w'.
Proof.
  intros Hw Ho Ha Ho' Hf k x. rewrite Ha, Ho'. specialize (Hw k). rewrite Ho in Hw.
  destruct (decide (h = k)) as [<-|Hne].
  - rewrite lookup_alter_eq. destruct (outputs w !! h) as [y|]; [|done].
    intros [= <-]. rewrite decide_True by done. apply Hf.
    specialize (Hw y eq_refl). by rewrite decide_True in Hw.
  - rewrite lookup_alter_ne by done. intros Hx. specialize (Hw x Hx).
    rewrite decide_False in Hw by congruence. by rewrite decide_False by congruence.
Qed.

Lemma outputs_inv_drop w w' h f :
  outputs_inv w -> output (vctx w) = Some h ->
  outputs w' = alter f h (outputs w) -> output (vctx w') = None ->
  (forall x, held_output (is_running (vctx w)) x -> torn_down (f x)) ->
  outputs_inv w'.
Proof.
  intros Hw Ho Ha Ho' Hf k x. rewrite Ha, Ho'. specialize (Hw k). rewrite Ho in Hw.
  rewrite decide_False by done.
  destruct (decide (h = k)) as [<-|Hne].
  - rewrite lookup_alter_eq. destruct (outputs w !! h) as [y|]; [|done].
    intros [= <-]. apply Hf. specialize (Hw y eq_refl). by rewrite decide_True in Hw.
  - rewrite lookup_alter_ne by done. intros Hx. specialize (Hw x Hx).
    by rewrite decide_False in Hw by congruence.
Qed.

Lemma outputs_inv_take w w' h o :
  outputs_inv w -> output (vctx w) = None ->
  outputs w' = <[h := o]> (outputs w) -> output (vctx w') = Some h ->
  held_output (is_running (vctx w')) o ->
  outputs_inv w'.
Proof.
  intros Hw Ho Hi Ho' Hheld k x. rewrite Hi, Ho'. specialize (Hw k). rewrite Ho in Hw.
  destruct (decide (h = k)) as [<-|Hne].
  - rewrite lookup_insert_eq. intros [= <-]. by rewrite decide_True.
  - rewrite lookup_insert_ne by done. intros Hx. specialize (Hw x Hx).
    rewrite decide_False in Hw by done. by rewrite decide_False by congruence.
Qed.

Lemma outputs_inv_aside w w' k o :
  outputs_inv w -> vctx w' = vctx w ->
  outputs w' = <[k := o]> (outputs w) -> output (vctx w) <> Some k ->
  torn_down o ->
  outputs_inv w'.
Proof.
  intros Hw Hv Hi Hk Ho j x. rewrite Hi, Hv. specialize (Hw j).
  destruct (decide (k = j)) as [<-|Hne].
  - rewrite lookup_insert_eq. intros [= <-]. by rewrite decide_False.
  - rewrite lookup_insert_ne by done. apply Hw.
Qed.

Lemma outputs_inv_world0 c : outputs_inv (world0 c).
Proof. intros h x Hx. cbn in Hx. by rewrite lookup_empty in Hx. Qed.

Lemma stop_outputs_inv w :
  outputs_inv w -> outputs_inv (exec vertical_output_stop w).
Proof.
  intros Hw. destruct (is_running (vctx w)) eqn:Hr.
  - destruct w as [[r n g e o] cfg outs nx tk tr lg]. cbn in Hr. subst r.
    destruct o as [h|].
    + eapply (outputs_inv_alter _ _ h); [exact Hw|done| |done|].
      * crank. apply alter_alter_eq.
      * by intros x (? & ? & ?).
    + intros k x Hx. exact (Hw k x Hx).
  - eapply outputs_inv_silent; [|done]. symmetry. by apply stop_idle.
Qed.

Lemma disconnect_both :
  disconnect_signal "stop" on_vertical_output_stopped
    (disconnect_signal "start" on_vertical_output_started both_callbacks) = [].
Proof. reflexivity. Qed.

Lemma deinit_outputs_inv w :
  outputs_inv w -> outputs_inv (exec vertical_output_deinit w).
Proof.
  intros Hw. destruct (output (vctx w)) as [h|] eqn:Ho.
  - destruct w as [[r n g e o] cfg outs nx tk tr lg]. cbn in Ho. subst o.
    destruct r.
    all: eapply (outputs_inv_drop _ _ h); [exact Hw|done| |done|].
    1,3: crank; rewrite !alter_alter_eq; reflexivity.
    all: intros x (Hrel & Hsig & Hact); cbn in Hact;
      unfold torn_down, compose, out_set_released, out_set_signals, out_set_media,
        out_set_active;
      cbn [out_released out_signals out_active out_video out_audio];
      rewrite Hsig, disconnect_both; done.
  - eapply outputs_inv_silent; [|done]. symmetry. by apply deinit_none.
Qed.

Lemma start_outputs_inv w :
  outputs_inv w -> outputs_inv (exec (vertical_output_start E) w).
Proof.
  intros Hw. destruct (output (vctx w)) as [h|] eqn:Ho.
  - destruct (start_run E w h Ho) as (v & a & r & t & pre & lg & Hrun & _).
    eapply (outputs_inv_alter w _ h); [done|done| | |]; rewrite Hrun; cbn; try done.
    by intros x (? & ? & ?).
  - eapply outputs_inv_silent; [|done]. symmetry. by apply start_none.
Qed.

Lemma init_outputs_inv w :
  vctx_inv w -> outputs_inv w -> outputs_inv (exec (vertical_output_init E) w).
Proof.
  intros Hv Hw. pose proof (deinit_outputs_inv w Hw) as Hd.
  pose proof (init_run E w) as Hi. cbn zeta in Hi.
  destruct (negb _ || _).
  - by apply (outputs_inv_silent _ _ (eq_sym Hi)).
  - destruct (env_output_create E (tick w)).
    + destruct Hi as (wm & -> & Hvm & _ & Ho & _).
      apply (outputs_inv_silent (exec (vertical_output_start E) wm)); [done|].
      apply start_outputs_inv.
      eapply (outputs_inv_take _ wm); [exact Hd|apply deinit_output|exact Ho| |];
        rewrite Hvm; cbn; [done|].
      repeat split. rewrite deinit_vctx. destruct Hv as (H1 & _).
      destruct (output (vctx w)) eqn:Hout; [done|]. by destruct (H1 eq_refl).
    + apply (outputs_inv_silent _ _ (eq_sym Hi)). exact Hd.
Qed.

Lemma is_supported_outputs_inv w :
  vctx_inv w -> outputs_inv w ->
  outputs_inv (exec (vertical_output_is_supported E) w).
Proof.
  intros (_ & H2 & H3) Hw.
  assert (Hfresh : output (vctx w) <> Some (next_output w)).
  { intros Ho. destruct (H2 _ Ho) as (x & Hx & _).
    pose proof (H3 (next_output w) (ex_intro _ x Hx)). lia. }
  destruct w as [vc cfg outs nx tk tr lg]. cbn in Hfresh. crank.
  destruct (env_output_create E tk); cbn; [|exact Hw].
  destruct (env_output_start E (S tk)); cbn.
  all: eapply (outputs_inv_aside _ _ nx); [exact Hw|done| |done|];
    [cbn; rewrite !alter_insert_eq; reflexivity|done].
Qed.

Lemma signal_outputs_inv o signal w :
  outputs_inv w -> outputs_inv (exec (signal_handler_signal o signal) w).
Proof.
  unfold outputs_inv, signal_handler_signal. rewrite exec_bind.
  destruct (eval (lookup_output o) w) as [x|]; [|done].
  destruct (run_callbacks_keeps signal (out_signals x) (exec (lookup_output o) w))
    as (-> & -> & _). done.
Qed.

Lemma call_outputs_inv c w :
  vctx_inv w -> outputs_inv w -> outputs_inv (exec (run_call E c) w).
Proof.
  intros Hv Hw. destruct c; cbn [run_call].
  - by apply init_outputs_inv.
  - by apply start_outputs_inv.
  - by apply stop_outputs_inv.
  - by apply deinit_outputs_inv.
  - rewrite exec_bind. by apply is_supported_outputs_inv.
  - done.
  - by apply signal_outputs_inv.
  - done.
Qed.

(** Reachable states are closed under calls. *)
Lemma run_calls_app l1 l2 w :
  exec (run_calls E (l1 ++ l2)) w = exec (run_calls E l2) (exec (run_calls E l1) w).
Proof.
  revert w. induction l1 as [|c l1 IH]; intros w; [done|].
  cbn [app run_calls]. by rewrite !exec_bind, IH.
Qed.

Lemma reachable_step c w : reachable E w -> reachable E (exec (run_call E c) w).
Proof.
  intros (cfg & l & ->). exists cfg, (l ++ [c]).
  rewrite run_calls_app. cbn [run_calls]. by rewrite exec_bind.
Qed.

Lemma reachable_outputs_inv w : reachable E w -> outputs_inv w.
Proof.
  intros (c & l & ->).
  generalize (inv_world0 c) (outputs_inv_world0 c). generalize (world0 c).
  induction l as [|x l IH]; intros w Hv Hw; [done|].
  cbn [run_calls]. rewrite exec_bind.
  apply IH; [by apply call_inv | by apply call_outputs_inv].
Qed.

(** X3 (every output is held or torn down).  In every reachable state,
    the output held by [vctx] is an unreleased host object with the
    "start" and the "stop" callback connected, active exactly when
    [is_running] is set; every other output the host has seen from this
    file is released, inactive, has no media bound and no callback
    connected. *)
Theorem outputs_held_or_torn_down w :
  reachable E w ->
  (forall h, output (vctx w) = Some h ->
     exists x, outputs w !! h = Some x /\
       out_released x = false /\
       out_signals x = [("start", on_vertical_output_started);
                        ("stop", on_vertical_output_stopped)] /\
       out_active x = is_running (vctx w)) /\
  (forall h x, outputs w !! h = Some x -> output (vctx w) <> Some h ->
     out_released x = true /\ out_signals x = [] /\ out_active x = false /\
     out_video x = None /\ out_audio x = None).
Proof.
  intros Hr. pose proof (reachable_inv E w Hr) as (_ & H2 & _).
  pose proof (reachable_outputs_inv w Hr) as Hw. split.
  - intros h Ho. destruct (H2 h Ho) as (x & Hx & _). exists x. split; [done|].
    specialize (Hw h x Hx). by rewrite decide_True in Hw.
  - intros h x Hx Hne. specialize (Hw h x Hx). by rewrite decide_False in Hw.
Qed.

(** *** Signal deliveries *)

Lemma signal_unheard h s w x :
  outputs w !! h = Some x -> out_signals x = [] ->
  exec (signal_handler_signal (Some h) s) w = w.
Proof.
  intros Hx Hs. unfold signal_handler_signal, lookup_output, exec, bind. cbn.
  by rewrite Hx, Hs.
Qed.

Lemma signal_unknown h s w : outputs w !! h = None ->
  exec (signal_handler_signal (Some h) s) w = w.
Proof.
  intros Hx. unfold signal_handler_signal, lookup_output, exec, bind. cbn.
  by rewrite Hx.
Qed.

(** X4 (signals of the held output).  In a reachable state with an output
    held, delivering its "start" signal sets the shared enabled flag and
    delivering its "stop" signal clears it; name and groups of the
    configuration, the context, the host objects and the trace stay as
    they are.  Any other signal of that output changes nothing at all. *)
Theorem held_output_signals_set_enabled_flag w h :
  reachable E w ->
  output (vctx w) = Some h ->
  enabled_flag_set true w (exec (signal_handler_signal (Some h) "start") w) /\
  enabled_flag_set false w (exec (signal_handler_signal (Some h) "stop") w) /\
  (forall s, s <> "start" -> s <> "stop" ->
     exec (signal_handler_signal (Some h) s) w = w).
Proof.
  intros Hr Ho. pose proof (reachable_inv E w Hr) as (_ & H2 & _).
  destruct (H2 h Ho) as (x & Hx & _).
  pose proof (reachable_outputs_inv w Hr h x Hx) as Hh.
  rewrite decide_True in Hh by done. destruct Hh as (_ & Hs & _).
  unfold signal_handler_signal, lookup_output, exec, bind. cbn.
  rewrite Hx, Hs. split; [done|]. split; [done|].
  intros s H1 H3. unfold both_callbacks. cbn [run_callbacks].
  assert (String.eqb "start" s = false) as -> by (apply String.eqb_neq; congruence).
  assert (String.eqb "stop" s = false) as -> by (apply String.eqb_neq; congruence).
  by destruct w.
Qed.

(** X5 (no signal reaches a handler from an output not held).  In a
    reachable state, delivering any signal of any output other than the
    held one runs no callback and changes nothing, log included; in
    particular after [deinit] no signal of any output changes anything. *)
Theorem signals_of_other_outputs_do_nothing w :
  reachable E w ->
  (forall h s, output (vctx w) <> Some h ->
     exec (signal_handler_signal (Some h) s) w = w) /\
  (forall h s,
     exec (signal_handler_signal (Some h) s) (exec vertical_output_deinit w) =
     exec vertical_output_deinit w).
Proof.
  assert (Hgen : forall u, reachable E u -> forall h s, output (vctx u) <> Some h ->
            exec (signal_handler_signal (Some h) s) u = u).
  { intros u Hu h s Hne. destruct (outputs u !! h) as [x|] eqn:Hx.
    - pose proof (reachable_outputs_inv u Hu h x Hx) as Hh.
      rewrite decide_False in Hh by done. destruct Hh as (_ & Hs & _).
      by eapply signal_unheard.
    - by apply signal_unknown. }
  intros Hr. split; [by apply Hgen|].
  intros h s. apply Hgen.
  - apply (reachable_step CallDeinit w Hr).
  - by rewrite deinit_output.
Qed.

(** *** last_error *)

Lemma call_keeps_last_error c w :
  makes_no_start c = true ->
  last_error (vctx (exec (run_call E c) w)) = last_error (vctx w).
Proof.
  destruct c; cbn [makes_no_start run_call]; try done; intros _.
  - destruct w as [[r n g e o] cfg outs nx tk tr lg]. by destruct r, o.
  - rewrite deinit_vctx. by destruct (output (vctx w)).
  - rewrite exec_bind. apply (f_equal last_error (is_supported_vctx E w)).
  - unfold signal_handler_signal. rewrite exec_bind.
    destruct (eval (lookup_output (Some h)) w) as [x|]; [|done].
    by destruct (run_callbacks_keeps signal (out_signals x)
                   (exec (lookup_output (Some h)) w)) as (-> & _).
Qed.

(** X6 (the reported error persists).  [vertical_output_last_error]
    changes nothing, and what it reports is not changed by any run of
    calls that contains neither [init] nor [start]: stop, deinit, the
    probe, signal deliveries and configuration changes all keep it. *)
Theorem last_error_persists l w :
  forallb makes_no_start l = true ->
  exec vertical_output_last_error w = w /\
  eval vertical_output_last_error (exec (run_calls E l) w) =
  eval vertical_output_last_error w.
Proof.
  intros Hl. split; [done|]. change (last_error (vctx (exec (run_calls E l) w)) =
                                      last_error (vctx w)).
  revert w. induction l as [|c l IH]; intros w; [done|].
  cbn in Hl. apply andb_true_iff in Hl as [Hc Hl].
  cbn [run_calls]. rewrite exec_bind, (IH Hl). by apply call_keeps_last_error.
Qed.

(** *** The probe and re-initialisation *)

(** X7 (the probe touches no existing output).  In a reachable state the
    probe leaves the context, the configuration and every output object
    that exists before the call as they are; the output it creates has a
    handle no earlier output has, and it never binds any media. *)
Theorem probe_touches_no_existing_output w :
  reachable E w ->
  let w' := exec (vertical_output_is_supported E) w in
  vctx w' = vctx w /\ config w' = config w /\
  (forall k, is_Some (outputs w !! k) -> outputs w' !! k = outputs w !! k) /\
  (forall i n s k, EvOutputCreate i n s (Some k)
                     ∈ events (vertical_output_is_supported E) w ->
     outputs w !! k = None) /\
  (forall o v a, EvOutputSetMedia o v a ∉ events (vertical_output_is_supported E) w).
Proof.
  intros (_ & _ & H3)%reachable_inv. cbn zeta.
  assert (Hnone : outputs w !! next_output w = None).
  { destruct (outputs w !! next_output w) eqn:Hx; [|done].
    pose proof (H3 _ (ex_intro _ _ Hx)). lia. }
  assert (Hfresh : forall k, is_Some (outputs w !! k) -> next_output w <> k).
  { intros k Hk%H3. lia. }
  destruct w as [vc cfg outs nx tk tr lg]. cbn in *. crank.
  destruct (env_output_create E tk); cbn;
    [destruct (env_output_start E (S tk)); cbn|].
  all: rewrite <- ?app_assoc, ?drop_app_length.
  all: split; [done|split; [done|split; [|split]]].
  all: try (intros k Hk; by rewrite ?lookup_alter_ne, ?lookup_insert_ne by (by apply Hfresh)).
  all: try (intros i n s k Hin;
            repeat (apply elem_of_cons in Hin as [Hin|Hin]; [by simplify_eq|]);
            by apply elem_of_nil in Hin).
  all: intros o v a Hin;
    repeat (apply elem_of_cons in Hin as [Hin|Hin]; [discriminate|]);
    by apply elem_of_nil in Hin.
Qed.

End Further.

(** ** The canvas lookup *)

Section Canvas.

Variable E : Env.

Lemma canvas_named_aitum_true c :
  canvas_named_aitum c = true <-> canvas_name c = Some "Aitum Vertical".
Proof.
  unfold canvas_named_aitum. destruct (canvas_name c) as [n|]; [|done].
  rewrite String.eqb_eq. unfold AITUM_VERTICAL_CANVAS_NAME. split; congruence.
Qed.

Lemma canvas_named_aitum_false c :
  canvas_named_aitum c = false <-> canvas_name c <> Some "Aitum Vertical".
Proof.
  rewrite <- canvas_named_aitum_true. by destruct (canvas_named_aitum c).
Qed.

Lemma find_loop_cons c rest :
  find_aitum_vertical_canvas_loop (c :: rest) =
  (name <- obs_canvas_get_name c ;;
   match name with
   | Some n =>
     if String.eqb n AITUM_VERTICAL_CANVAS_NAME
     then obs_canvas_get_ref c
     else find_aitum_vertical_canvas_loop rest
   | None => find_aitum_vertical_canvas_loop rest
   end).
Proof. reflexivity. Qed.

(** The calls of the loop: names are asked in list order up to the first
    canvas with the reserved name, which is then referenced; no canvas
    after it is looked at. *)
Lemma find_loop_trace cl w :
  (Forall (fun c => canvas_named_aitum c = false) cl /\
   trace (exec (find_aitum_vertical_canvas_loop cl) w) =
     trace w ++ map (fun c => EvCanvasGetName (canvas_id c)) cl) \/
  (exists l1 c l2,
     cl = l1 ++ c :: l2 /\
     Forall (fun c' => canvas_named_aitum c' = false) l1 /\
     canvas_named_aitum c = true /\
     List.find canvas_named_aitum cl = Some c /\
     trace (exec (find_aitum_vertical_canvas_loop cl) w) =
       trace w ++ map (fun c' => EvCanvasGetName (canvas_id c')) (l1 ++ [c]) ++
       [EvCanvasGetRef (canvas_id c) (canvas_ref c)]).
Proof.
  revert w. induction cl as [|c cl IH]; intros w.
  - left. split; [constructor|]. cbn. by rewrite app_nil_r.
  - rewrite find_loop_cons, exec_bind.
    change (eval (obs_canvas_get_name c) w) with (canvas_name c).
    destruct (canvas_named_aitum c) eqn:Hn.
    + right. exists [], c, cl. split; [done|]. split; [constructor|]. split; [done|].
      split; [cbn; by rewrite Hn|].
      unfold canvas_named_aitum in Hn. destruct (canvas_name c) as [n|]; [|done].
      rewrite Hn. cbn. by rewrite <- app_assoc.
    + assert (Hstep : exec
         match canvas_name c with
         | Some n =>
           if String.eqb n AITUM_VERTICAL_CANVAS_NAME
           then obs_canvas_get_ref c
           else find_aitum_vertical_canvas_loop cl
         | None => find_aitum_vertical_canvas_loop cl
         end (exec (obs_canvas_get_name c) w) =
         exec (find_aitum_vertical_canvas_loop cl) (exec (obs_canvas_get_name c) w)).
      { unfold canvas_named_aitum in Hn. destruct (canvas_name c) as [n|]; [|done].
        by rewrite Hn. }
      rewrite Hstep.
      destruct (IH (exec (obs_canvas_get_name c) w))
        as [[Hall Ht]|(l1 & c' & l2 & -> & Hall & Hc' & Hf & Ht)].
      * left. split; [by constructor|]. rewrite Ht. cbn. by rewrite <- app_assoc.
      * right. exists (c :: l1), c', l2. split; [done|]. split; [by constructor|].
        split; [done|]. split; [cbn; by rewrite Hn|].
        rewrite Ht. cbn. by rewrite <- !app_assoc.
Qed.

Lemma find_canvas_eval w :
  eval (find_aitum_vertical_canvas E) w =
  match List.find canvas_named_aitum (env_canvases E (tick w)) with
  | Some c => if canvas_ref c then Some c else None
  | None => None
  end.
Proof.
  unfold eval, find_aitum_vertical_canvas, obs_frontend_get_canvases,
    obs_frontend_canvas_list_free, bind, ret, ask, emit. cbn.
  match goal with |- context [find_aitum_vertical_canvas_loop ?cl ?w0] =>
    destruct (find_loop_run cl w0) as (evs & -> & _) end.
  done.
Qed.

(** [find_aitum_vertical_canvas] in closed form, by whether the list has
    a canvas with the reserved name. *)
Lemma find_canvas_cases w :
  let cl := env_canvases E (tick w) in
  exists evs,
    find_aitum_vertical_canvas E w =
      (match List.find canvas_named_aitum cl with
       | Some c => if canvas_ref c then Some c else None
       | None => None
       end,
       advance (S (tick w)) (EvGetCanvases (length cl) :: evs ++ [EvCanvasListFree]) [] w) /\
    ((Forall (fun c => canvas_named_aitum c = false) cl /\
      List.find canvas_named_aitum cl = None /\
      evs = map (fun c => EvCanvasGetName (canvas_id c)) cl) \/
     (exists l1 c l2,
        cl = l1 ++ c :: l2 /\
        Forall (fun c' => canvas_named_aitum c' = false) l1 /\
        canvas_named_aitum c = true /\
        List.find canvas_named_aitum cl = Some c /\
        evs = map (fun c' => EvCanvasGetName (canvas_id c')) (l1 ++ [c]) ++
              [EvCanvasGetRef (canvas_id c) (canvas_ref c)])).
Proof.
  cbn zeta. set (cl := env_canvases E (tick w)).
  set (w0 := exec (obs_frontend_get_canvases E) w).
  pose proof (find_loop_trace cl w0) as Htr.
  destruct (find_loop_run cl w0) as (evs & Hl & _).
  exists evs. split.
  { unfold find_aitum_vertical_canvas, obs_frontend_get_canvases,
      obs_frontend_canvas_list_free, bind, ret, ask, emit. cbn. fold cl.
    change ({| vctx := vctx w; config := config w; outputs := outputs w;
               next_output := next_output w; tick := S (tick w);
               trace := trace w ++ [EvGetCanvases (length cl)]; log := log w |})
      with w0.
    rewrite Hl. unfold advance. cbn. by rewrite <- !app_assoc, app_nil_r. }
  unfold exec in Htr. rewrite Hl in Htr. cbn [snd advance trace] in Htr.
  destruct Htr as [[Hall Ht]|(l1 & c & l2 & Hcl & Hall & Hc & Hf & Ht)];
    apply app_inv_head in Ht; subst evs.
  - left. split; [done|]. split; [|done].
    destruct (List.find canvas_named_aitum cl) as [c|] eqn:Hf; [|done].
    apply List.find_some in Hf as [Hin Hc]. apply list_elem_of_In in Hin.
    by rewrite (proj1 (Forall_forall _ _) Hall c Hin) in Hc.
  - right. by exists l1, c, l2.
Qed.

Lemma events_of_run {A} (m : M A) w r t evs lg :
  m w = (r, advance t evs lg w) -> events m w = evs.
Proof. intros H. apply events_of_trace. unfold exec. by rewrite H. Qed.

(** X8 (the canvas lookup).  [find_aitum_vertical_canvas] fetches the
    canvas list once and frees it as its last call on every path.  In
    between it asks the names in list order up to the first canvas whose
    name is exactly "Aitum Vertical" (canvases with a null or another name
    are passed over, canvases after the match are never looked at), and
    takes a reference to that one only.  It returns that canvas when the
    reference was obtained and null otherwise; it changes neither the
    context nor the configuration nor any output. *)
Theorem find_canvas_first_match w :
  let cl := env_canvases E (tick w) in
  let r := eval (find_aitum_vertical_canvas E) w in
  let evs := events (find_aitum_vertical_canvas E) w in
  let w' := exec (find_aitum_vertical_canvas E) w in
  vctx w' = vctx w /\ config w' = config w /\ outputs w' = outputs w /\
  ((Forall (fun c => canvas_name c <> Some "Aitum Vertical") cl /\
    r = None /\
    evs = EvGetCanvases (length cl) ::
          map (fun c => EvCanvasGetName (canvas_id c)) cl ++ [EvCanvasListFree]) \/
   (exists l1 c l2,
      cl = l1 ++ c :: l2 /\
      Forall (fun c' => canvas_name c' <> Some "Aitum Vertical") l1 /\
      canvas_name c = Some "Aitum Vertical" /\
      r = (if canvas_ref c then Some c else None) /\
      evs = EvGetCanvases (length cl) ::
            map (fun c' => EvCanvasGetName (canvas_id c')) (l1 ++ [c]) ++
            [EvCanvasGetRef (canvas_id c) (canvas_ref c); EvCanvasListFree])).
Proof.
  cbn zeta. destruct (find_canvas_cases w) as (evs & Hrun & Hcases). cbn zeta in *.
  rewrite (events_of_run _ _ _ _ _ _ Hrun). unfold exec, eval. rewrite Hrun.
  cbn [fst snd advance vctx config outputs].
  split; [done|]. split; [done|]. split; [done|].
  destruct Hcases as [(Hall & -> & ->)|(l1 & c & l2 & Hcl & Hall & Hc & -> & ->)].
  - left. split; [|done].
    eapply Forall_impl; [exact Hall|]. intros c. apply canvas_named_aitum_false.
  - right. exists l1, c, l2. split; [done|]. split.
    + eapply Forall_impl; [exact Hall|]. intros c'. apply canvas_named_aitum_false.
    + split; [by apply canvas_named_aitum_true|]. split; [done|].
      by rewrite <- app_assoc.
Qed.

(** *** References and lists are given back *)

Lemma count_events_app p l1 l2 :
  count_events p (l1 ++ l2) = count_events p l1 + count_events p l2.
Proof. unfold count_events. by rewrite List.filter_app, length_app. Qed.

Lemma count_events_names p (l : list obs_canvas) :
  (forall id, p (EvCanvasGetName id) = false) ->
  count_events p (map (fun c => EvCanvasGetName (canvas_id c)) l) = 0.
Proof.
  intros Hp. unfold count_events. induction l as [|c l IH]; [done|].
  cbn. by rewrite Hp.
Qed.

(** The canvas tier on a null [video]: what it returns, and that its
    calls are balanced. *)
Lemma canvas_tier_balanced w :
  exists t cpart lg,
    start_video_canvas E None w =
      (if HAVE_OBS_CANVAS_API E
       then canvas_tier_video (env_canvases E (tick w)) else None,
       advance t cpart lg w) /\
    count_events is_ref_taken cpart = count_events is_ref_released cpart /\
    count_events is_list_fetched cpart = count_events is_list_freed cpart /\
    count_events is_list_fetched cpart = (if HAVE_OBS_CANVAS_API E then 1 else 0) /\
    count_events is_ref_taken cpart <= 1.
Proof.
  unfold start_video_canvas, canvas_tier_video.
  destruct (HAVE_OBS_CANVAS_API E); cbn [non_null negb].
  - destruct (find_canvas_cases w) as (evs & Hrun & Hcases). cbn zeta in *.
    unfold bind. rewrite Hrun.
    destruct Hcases as [(Hall & -> & ->)|(l1 & c & l2 & Hcl & Hall & Hc & -> & ->)].
    + do 3 eexists. split; [reflexivity|].
      change (EvGetCanvases ?n :: ?l ++ [EvCanvasListFree])
        with ([EvGetCanvases n] ++ l ++ [EvCanvasListFree]).
      rewrite !count_events_app, !count_events_names by done.
      unfold count_events; cbn; repeat split; lia.
    + destruct (canvas_ref c) eqn:Href.
      * exists (S (tick w)),
          (EvGetCanvases (length (env_canvases E (tick w))) ::
           map (fun c' => EvCanvasGetName (canvas_id c')) (l1 ++ [c]) ++
           [EvCanvasGetRef (canvas_id c) true; EvCanvasListFree;
            EvCanvasGetVideo (canvas_id c) (canvas_video c);
            EvCanvasRelease (canvas_id c)]),
          (if non_null (canvas_video c)
           then [(LOG_INFO, "Vertical NDI: bound to Aitum canvas via canvas API", [])]
           else []).
        split.
        -- unfold obs_canvas_get_video, obs_canvas_release, bind, ret, emit, obs_log,
             advance. cbn.
           destruct (canvas_video c); cbn; rewrite <- ?app_assoc, ?app_nil_r; cbn;
             rewrite <- ?app_assoc; reflexivity.
        -- change (EvGetCanvases ?n :: ?l) with ([EvGetCanvases n] ++ l).
           rewrite !count_events_app, !count_events_names by done.
           unfold count_events; cbn; repeat split; lia.
      * exists (S (tick w)),
          (EvGetCanvases (length (env_canvases E (tick w))) ::
           (map (fun c' => EvCanvasGetName (canvas_id c')) (l1 ++ [c]) ++
            [EvCanvasGetRef (canvas_id c) false]) ++ [EvCanvasListFree]), [].
        split; [done|].
        change (EvGetCanvases ?n :: ?l) with ([EvGetCanvases n] ++ l).
        rewrite !count_events_app, !count_events_names by done.
      unfold count_events; cbn; repeat split; lia.
  - exists (tick w), [], []. rewrite advance_id. split; [done|].
    unfold count_events; cbn; repeat split; lia.
Qed.

(** X9 (canvas references and lists are given back).  In the calls of
    one video source resolution, as many canvas references are released
    as were obtained (at most one), and the canvas list is freed as often
    as it was fetched (once when the vendor query gave no handle and the
    canvas API is compiled in, never otherwise). *)
Theorem canvas_references_balanced w :
  let evs := events (vertical_output_start_video E) w in
  count_events is_ref_taken evs = count_events is_ref_released evs /\
  count_events is_list_fetched evs = count_events is_list_freed evs /\
  count_events is_ref_taken evs <= 1 /\
  count_events is_list_fetched evs =
    (if HAVE_OBS_CANVAS_API E
     then if non_null (eval (get_aitum_vertical_video E) w) then 0 else 1
     else 0).
Proof.
  cbn zeta.
  assert (Hv : forall p, (forall b, p (EvGetProcHandler b) = false) ->
             (forall n c b, p (EvProcCall n c b) = false) ->
             count_events p (events (get_aitum_vertical_video E) w) = 0).
  { intros p H1 H2. rewrite vendor_events. unfold count_events.
    destruct (env_proc_handler E (tick w)); cbn; by rewrite ?H1, ?H2. }
  assert (Hrun : exists r t evs lg,
    vertical_output_start_video E w = (r, advance t evs lg w) /\
    exists cpart mpart,
      evs = events (get_aitum_vertical_video E) w ++ cpart ++ mpart /\
      (mpart = [] \/ exists v, mpart = [EvGetVideo v]) /\
      count_events is_ref_taken cpart = count_events is_ref_released cpart /\
      count_events is_list_fetched cpart = count_events is_list_freed cpart /\
      count_events is_ref_taken cpart <= 1 /\
      count_events is_list_fetched cpart =
        (if HAVE_OBS_CANVAS_API E
         then if non_null (eval (get_aitum_vertical_video E) w) then 0 else 1
         else 0)).
  { unfold vertical_output_start_video, bind.
    rewrite vendor_run. cbn [fst snd].
    destruct (eval (get_aitum_vertical_video E) w) as [v0|] eqn:Hvq.
    - exists (Some v0). do 3 eexists. split.
      + unfold start_video_canvas, start_video_main, ret. cbn.
        destruct (HAVE_OBS_CANVAS_API E); reflexivity.
      + exists [], []. rewrite !app_nil_r. split; [done|]. split; [by left|].
        destruct (HAVE_OBS_CANVAS_API E); unfold count_events; cbn; repeat split; lia.
    - match goal with |- context [start_video_canvas E None ?w0] =>
        destruct (canvas_tier_balanced w0) as (t & cpart & lg & -> & H1 & H2 & H3 & H4)
      end.
      cbn [fst snd advance tick] in *.
      destruct (if HAVE_OBS_CANVAS_API E then _ else None) as [v1|] eqn:Hcv.
      + cbn [start_video_main non_null negb]. unfold ret.
        rewrite advance_advance. do 4 eexists. split; [reflexivity|].
        exists cpart, []. rewrite app_nil_r. split; [done|]. split; [by left|].
        repeat split; first [done | rewrite H3; by destruct (HAVE_OBS_CANVAS_API E)].
      + rewrite main_run. cbn [fst snd]. rewrite !advance_advance.
        do 4 eexists. split; [reflexivity|].
        exists cpart. eexists. split; [by rewrite app_assoc|].
        split; [right; by eexists|].
        repeat split; first [done | rewrite H3; by destruct (HAVE_OBS_CANVAS_API E)]. }
  destruct Hrun as (r & t & evs & lg & Hrun & cpart & mpart & -> & Hm & H1 & H2 & H3 & H4).
  rewrite (events_of_run _ _ _ _ _ _ Hrun).
  assert (Hm0 : forall p, (forall v, p (EvGetVideo v) = false) -> count_events p mpart = 0).
  { intros p Hp. destruct Hm as [->|[v ->]]; [done|]. unfold count_events. cbn.
    by rewrite Hp. }
  rewrite !count_events_app, !Hv, !Hm0 by done. lia.
Qed.

End Canvas.

(** ** The vendor query, teardown and re-initialisation *)

Section Lifecycle.

Variable E : Env.

(** X10 (the vendor query).  Without a proc handler the vendor proc is
    not called and the answer is null.  With one, the proc
    "aitum_vertical_get_video" is called once, with width 0 and height 0;
    the answer is the pointer the proc stored under "video", and null when
    the call was not dispatched or the proc stored null.  The query
    changes neither the context, the configuration, the outputs nor the
    log. *)
Theorem vendor_query_answers w :
  let w' := exec (get_aitum_vertical_video E) w in
  eval (get_aitum_vertical_video E) w =
    (if env_proc_handler E (tick w)
     then match env_proc_call E (S (tick w)) "aitum_vertical_get_video" with
          | Some p => p
          | None => None
          end
     else None) /\
  events (get_aitum_vertical_video E) w =
    (if env_proc_handler E (tick w)
     then [EvGetProcHandler true;
           EvProcCall "aitum_vertical_get_video"
             [("width", CdInt 0); ("height", CdInt 0)]
             (bool_decide (is_Some (env_proc_call E (S (tick w))
                                      "aitum_vertical_get_video")))]
     else [EvGetProcHandler false]) /\
  vctx w' = vctx w /\ config w' = config w /\ outputs w' = outputs w /\
  log w' = log w.
Proof.
  cbn zeta. split; [|split; [apply vendor_events|]].
  - unfold eval, get_aitum_vertical_video, obs_get_proc_handler, proc_handler_call,
      bind, ret, ask, emit. cbn.
    destruct (env_proc_handler E (tick w)); cbn; [|done].
    by destruct (env_proc_call E (S (tick w)) _) as [[v|]|].
  - unfold exec, get_aitum_vertical_video, obs_get_proc_handler, proc_handler_call,
      bind, ret, ask, emit. cbn.
    destruct (env_proc_handler E (tick w)); cbn; [|done].
    by destruct (env_proc_call E (S (tick w)) _) as [[v|]|].
Qed.

(** X11 (deinit detaches before it releases).  On a held output, running
    or not, the calls of [deinit] end with: detach video and audio, fetch
    the signal handler, disconnect both callbacks, release.  No call of
    [deinit] binds a source, and the released object has no media left,
    also when a failed start had left some bound. *)
Theorem deinit_detaches_before_release w h :
  output (vctx w) = Some h ->
  let evs := events vertical_output_deinit w in
  (exists pre,
     evs = pre ++
       [EvOutputSetMedia (Some h) None None; EvGetSignalHandler (Some h);
        EvSignalDisconnect (Some h) "start" on_vertical_output_started;
        EvSignalDisconnect (Some h) "stop" on_vertical_output_stopped;
        EvOutputRelease (Some h)]) /\
  (forall o v a, EvOutputSetMedia o v a ∈ evs -> v = None /\ a = None) /\
  (forall x, outputs (exec vertical_output_deinit w) !! h = Some x ->
     out_video x = None /\ out_audio x = None /\ out_released x = true).
Proof.
  intros Ho. cbn zeta. rewrite (deinit_events w h Ho). split; [|split].
  - by eexists.
  - intros o v a Hin. destruct (is_running (vctx w)); cbn in Hin;
      repeat (apply elem_of_cons in Hin as [Hin|Hin]; [by simplify_eq|]);
      by apply elem_of_nil in Hin.
  - intros x Hx. by destruct (deinit_released w h x Ho Hx) as (? & ? & ? & _).
Qed.

Lemma deinit_keeps_outputs w k :
  is_Some (outputs w !! k) -> is_Some (outputs (exec vertical_output_deinit w) !! k).
Proof.
  destruct w as [[r n g e o] cfg outs nx tk tr lg]. cbn.
  destruct o, r; cbn; by rewrite ?lookup_alter_is_Some.
Qed.

Lemma start_keeps_outputs w k :
  is_Some (outputs w !! k) ->
  is_Some (outputs (exec (vertical_output_start E) w) !! k).
Proof.
  destruct (output (vctx w)) as [h|] eqn:Ho.
  - destruct (start_run E w h Ho) as (v & a & r & t & pre & lg & -> & _).
    cbn. by rewrite lookup_alter_is_Some.
  - pose proof (start_none E w Ho) as (_ & _ & -> & _)%silent_eq. done.
Qed.

(** What [init] leaves in [vctx.output], and that it forgets no output. *)
Lemma init_output_cases w :
  let w' := exec (vertical_output_init E) w in
  (output (vctx w') = None \/ output (vctx w') = Some (next_output w)) /\
  (forall k, is_Some (outputs w !! k) -> is_Some (outputs w' !! k)).
Proof.
  cbn zeta. pose proof (init_run E w) as Hi. cbn zeta in Hi.
  destruct (negb _ || _).
  - apply silent_eq in Hi as (-> & _ & -> & _). split.
    + left. apply deinit_output.
    + apply deinit_keeps_outputs.
  - destruct (env_output_create E (tick w)).
    + destruct Hi as (wm & -> & Hv & _ & Ho & _). split.
      * right. cbn. destruct (start_keeps E wm) as (_ & _ & ->). by rewrite Hv.
      * intros k Hk. cbn. apply start_keeps_outputs. rewrite Ho.
        apply lookup_insert_is_Some'. right. by apply deinit_keeps_outputs.
    + apply silent_eq in Hi as (-> & _ & -> & _). split.
      * left. apply deinit_output.
      * apply deinit_keeps_outputs.
Qed.

(** X12 (re-initialisation replaces the output).  In a reachable state
    that holds an output, [init] never ends holding that output again: the
    old object is released, inactive, without media and without callbacks
    afterwards, and an output held after the call has a handle that no
    output had before. *)
Theorem reinit_replaces_the_output w h0 :
  reachable E w ->
  output (vctx w) = Some h0 ->
  let w' := exec (vertical_output_init E) w in
  output (vctx w') <> Some h0 /\
  (exists x, outputs w' !! h0 = Some x /\
     out_released x = true /\ out_signals x = [] /\ out_active x = false /\
     out_video x = None /\ out_audio x = None) /\
  (forall h, output (vctx w') = Some h -> outputs w !! h = None).
Proof.
  intros Hr Ho. cbn zeta.
  pose proof (reachable_inv E w Hr) as (_ & H2 & H3).
  destruct (H2 h0 Ho) as (x0 & Hx0 & _).
  assert (Hlt : h0 < next_output w) by (apply H3; by eexists).
  assert (Hnone : outputs w !! next_output w = None).
  { destruct (outputs w !! next_output w) eqn:Hx; [|done].
    pose proof (H3 _ (ex_intro _ _ Hx)). lia. }
  destruct (init_output_cases w) as (Hcases & Hkeep). cbn zeta in *.
  assert (Hne : output (vctx (exec (vertical_output_init E) w)) <> Some h0).
  { destruct Hcases as [-> | ->]; [done|]. intros [= Heq]. lia. }
  split; [done|]. split.
  - destruct (Hkeep h0 (ex_intro _ _ Hx0)) as (x & Hx). exists x. split; [done|].
    pose proof (reachable_outputs_inv E _ (reachable_step E CallInit w Hr) h0 x Hx) as Hh.
    cbn [run_call] in Hh. by rewrite decide_False in Hh.
  - intros h Hh. destruct Hcases as [Hc | Hc]; rewrite Hc in Hh; [done|].
    by injection Hh as <-.
Qed.

End Lifecycle.

(** ** What is logged as an error *)

Section Logging.

Variable E : Env.

Arguments vertical_output_start : simpl never.
Arguments vertical_output_start_video : simpl never.

Ltac crank :=
  unfold events, logged, exec, eval,
    vertical_output_init, vertical_output_deinit, vertical_output_is_supported,
    vertical_output_start, vertical_output_stop, vertical_output_last_error,
    get_aitum_vertical_video, find_aitum_vertical_canvas,
    obs_output_create, obs_output_start, obs_output_stop, obs_output_release,
    obs_output_set_media, obs_output_get_last_error, obs_output_get_signal_handler,
    signal_handler_connect, signal_handler_disconnect,
    obs_get_proc_handler, proc_handler_call, obs_frontend_get_canvases,
    obs_frontend_canvas_list_free, obs_canvas_get_name, obs_canvas_get_ref,
    obs_canvas_get_video, obs_canvas_release, obs_get_video, obs_get_audio,
    bind, ret;
  cbn.

Lemma logged_app {A} (m : M A) w lg :
  log (exec m w) = log w ++ lg -> logged m w = lg.
Proof. intros H. unfold logged. by rewrite H, drop_app_length. Qed.

(** The canvas tier on a null [video]: it logs its line exactly when it
    supplies a handle. *)
Lemma canvas_tier_log w :
  let cv := if HAVE_OBS_CANVAS_API E
            then canvas_tier_video (env_canvases E (tick w)) else None in
  exists t cpart,
    start_video_canvas E None w =
      (cv, advance t cpart
             (if non_null cv
              then [(LOG_INFO, "Vertical NDI: bound to Aitum canvas via canvas API", [])]
              else []) w).
Proof.
  cbn zeta. unfold start_video_canvas, canvas_tier_video.
  destruct (HAVE_OBS_CANVAS_API E); cbn [non_null negb].
  - destruct (find_canvas_cases E w) as (evs & Hrun & _). cbn zeta in *.
    unfold bind. rewrite Hrun.
    destruct (List.find _ _) as [c|]; [destruct (canvas_ref c)|].
    + exists (S (tick w)),
        (EvGetCanvases (length (env_canvases E (tick w))) :: evs ++
         [EvCanvasListFree; EvCanvasGetVideo (canvas_id c) (canvas_video c);
          EvCanvasRelease (canvas_id c)]).
      unfold obs_canvas_get_video, obs_canvas_release, bind, ret, emit, obs_log,
        advance. cbn.
      destruct (canvas_video c); cbn; rewrite <- ?app_assoc, ?app_nil_r; cbn;
        rewrite <- ?app_assoc; reflexivity.
    + by do 2 eexists.
    + by do 2 eexists.
  - exists (tick w), []. by rewrite advance_id.
Qed.

Lemma start_video_log w :
  let vq := eval (get_aitum_vertical_video E) w in
  let w1 := exec (get_aitum_vertical_video E) w in
  let cv := if HAVE_OBS_CANVAS_API E
            then canvas_tier_video (env_canvases E (tick w1)) else None in
  exists r t evs,
    vertical_output_start_video E w = (r, advance t evs [tier_line vq cv] w).
Proof.
  cbn zeta. unfold vertical_output_start_video, bind.
  rewrite vendor_run. cbn [fst snd]. unfold tier_line.
  destruct (eval (get_aitum_vertical_video E) w) as [v0|] eqn:Hvq.
  - exists (Some v0). do 2 eexists.
    unfold start_video_canvas, start_video_main, ret. cbn.
    destruct (HAVE_OBS_CANVAS_API E); reflexivity.
  - match goal with |- context [start_video_canvas E None ?w0] =>
      destruct (canvas_tier_log w0) as (t & cpart & ->) end.
    cbn [fst snd advance tick non_null].
    destruct (if HAVE_OBS_CANVAS_API E then _ else None) as [v1|].
    + cbn [start_video_main non_null negb]. unfold ret.
      rewrite advance_advance. by do 3 eexists.
    + rewrite main_run. cbn [fst snd]. rewrite !advance_advance.
      by do 3 eexists.
Qed.

Lemma start_video_quiet w :
  exists r t evs lg,
    vertical_output_start_video E w = (r, advance t evs lg w) /\
    List.filter is_error_line lg = [].
Proof.
  destruct (start_video_log w) as (r & t & evs & H). by do 4 eexists.
Qed.

(** X13 (the resolver names its tier).  One video source resolution logs
    exactly one line, at [LOG_INFO]: the vendor-proc line when the vendor
    query gave a handle, else the canvas line when the canvas tier gave
    one, else the main-program line. *)
Theorem resolver_logs_its_tier w :
  let vq := eval (get_aitum_vertical_video E) w in
  let w1 := exec (get_aitum_vertical_video E) w in
  let cv := if HAVE_OBS_CANVAS_API E
            then canvas_tier_video (env_canvases E (tick w1)) else None in
  logged (vertical_output_start_video E) w =
    [(LOG_INFO,
      if non_null vq then "Vertical NDI: bound to Aitum video via vendor proc"
      else if non_null cv then "Vertical NDI: bound to Aitum canvas via canvas API"
      else "Vertical NDI: bound to main program video",
      [])].
Proof.
  cbn zeta. destruct (start_video_log w) as (r & t & evs & H).
  apply logged_app. unfold exec. by rewrite H.
Qed.

(** The error lines of [vertical_output_start] on an output. *)
Lemma start_errors w h :
  output (vctx w) = Some h ->
  let w' := exec (vertical_output_start E) w in
  exists lg,
    log w' = log w ++ lg /\
    List.filter is_error_line lg =
      (if is_running (vctx w') then []
       else [(LOG_ERROR,
              "ERR-450 - Failed to start NDI Vertical Output '%s'; error='%s'",
              [ndi_name (vctx w); last_error (vctx w')])]).
Proof.
  destruct w as [[r n g e o] cfg outs nx tk tr lg]. cbn. intros ->.
  crank. destruct r; cbn.
  all: match goal with |- context [vertical_output_start_video E ?w0] =>
         destruct (start_video_quiet w0) as (v & t & evs & lg' & -> & Hq) end.
  all: cbn; destruct (env_output_start E (S t)) as [|msg] eqn:Hst; cbn.
  all: rewrite ?lookup_alter_eq; destruct (outs !! h) as [x|] eqn:Hx; cbn.
  all: eexists; split; [rewrite <- ?app_assoc; reflexivity|].
  all: cbn; rewrite ?List.filter_app, Hq; cbn; done.
Qed.

(** [init] when the output is created: the world [wm] in which it calls
    [vertical_output_start], and what it has logged until then. *)
Lemma init_created_log w :
  negb (VerticalOutputEnabled (config w)) || isEmpty (VerticalOutputName (config w)) = false ->
  env_output_create E (tick w) = true ->
  exists wm lgm,
    exec (vertical_output_init E) w =
      exec (obs_log LOG_DEBUG "-vertical_output_init()" [])
        (exec (vertical_output_start E) wm) /\
    output (vctx wm) = Some (next_output w) /\
    ndi_name (vctx wm) = VerticalOutputName (config w) /\
    log wm = log w ++ lgm /\
    List.filter is_error_line lgm = [].
Proof.
  destruct w as [[r n g e o] [en nm gr] outs nx tk tr lg].
  cbn [config VerticalOutputEnabled VerticalOutputName VerticalOutputGroups tick
       next_output log].
  intros Hen Hc. destruct en; [|done]. destruct nm as [|c0 nm]; [done|]. clear Hen.
  destruct o as [h0|], r;
    unfold exec, vertical_output_init, vertical_output_deinit,
      vertical_output_stop, obs_output_create, obs_output_stop,
      obs_output_release, obs_output_set_media, obs_output_get_signal_handler,
      signal_handler_connect, signal_handler_disconnect, bind, ret;
    cbn; unfold ask; cbn; rewrite Hc; cbn.
  all: match goal with |- context [vertical_output_start E ?w0] => exists w0 end.
  all: eexists; split; [by destruct (vertical_output_start E _)|].
  all: cbn [vctx output ndi_name log]; split; [reflexivity|]; split; [reflexivity|].
  all: split; [rewrite <- !app_assoc; reflexivity|reflexivity].
Qed.

(** X14 (what is reported as an error).  [start] without an output logs
    ERR-451 and nothing else at error level.  [start] on an output logs
    no error when the output started, and otherwise exactly one, ERR-450,
    carrying the NDI name and the text it stored in [last_error].  [init]
    logs ERR-452 with the configured name exactly when it is enabled and
    named and the output could not be created; when the output was
    created its only possible error line is the ERR-450 of the start.
    [stop], [deinit] and the support probe never log an error. *)
Theorem errors_logged w :
  let errors {A} (m : M A) := List.filter is_error_line (logged m w) in
  let c := config w in
  errors (vertical_output_start E) =
    match output (vctx w) with
    | None => [(LOG_ERROR, "ERR-451 - NDI Vertical Output not initialized", [])]
    | Some _ =>
      if is_running (vctx (exec (vertical_output_start E) w)) then []
      else [(LOG_ERROR,
             "ERR-450 - Failed to start NDI Vertical Output '%s'; error='%s'",
             [ndi_name (vctx w);
              last_error (vctx (exec (vertical_output_start E) w))])]
    end /\
  errors (vertical_output_init E) =
    (if negb (VerticalOutputEnabled c) || isEmpty (VerticalOutputName c) then []
     else if env_output_create E (tick w) then
       if is_running (vctx (exec (vertical_output_init E) w)) then []
       else [(LOG_ERROR,
              "ERR-450 - Failed to start NDI Vertical Output '%s'; error='%s'",
              [VerticalOutputName c;
               last_error (vctx (exec (vertical_output_init E) w))])]
     else [(LOG_ERROR, "ERR-452 - Failed to create NDI Vertical Output '%s'",
            [VerticalOutputName c])]) /\
  errors vertical_output_stop = [] /\
  errors vertical_output_deinit = [] /\
  errors (vertical_output_is_supported E) = [].
Proof.
  cbn zeta. repeat split.
  - destruct (output (vctx w)) as [h|] eqn:Ho.
    + destruct (start_errors w h Ho) as (lg & Hl & Hf). cbn zeta in *.
      by rewrite (logged_app _ _ _ Hl).
    + destruct w as [[r n g e o] cfg outs nx tk tr lg]. cbn in Ho. subst o.
      crank. rewrite <- !app_assoc, drop_app_length. done.
  - destruct w as [[r n g e o] [en nm gr] outs nx tk tr lg].
    cbn [config VerticalOutputEnabled VerticalOutputName VerticalOutputGroups tick].
    destruct en; cbn [negb orb]; [destruct nm as [|c0 nm]; cbn [isEmpty]|].
    + destruct o, r; crank; rewrite <- !app_assoc, drop_app_length; done.
    + destruct (env_output_create E tk) eqn:Hc.
      * match goal with |- context [exec (vertical_output_init E) ?w0] =>
          destruct (init_created_log w0 eq_refl Hc)
            as (wm & lgm & Hex & Ho & Hn & Hlm & Hqm) end.
        cbn [config VerticalOutputName next_output log] in Hn, Hlm, Ho.
        pose proof (start_errors wm nx Ho) as Hs; cbn zeta in Hs.
        destruct Hs as (lg1 & Hl & Hf).
        unfold logged. rewrite Hex.
        unfold exec at 1 3 4. unfold obs_log. cbn [snd log vctx].
        rewrite Hl, Hlm, <- !app_assoc, drop_app_length, !List.filter_app, Hqm, Hf, Hn.
        clear. by destruct (is_running _).
      * destruct o, r; crank; unfold ask; cbn; rewrite Hc; cbn;
          rewrite <- !app_assoc, drop_app_length; done.
    + destruct o, r; crank; rewrite <- !app_assoc, drop_app_length; done.
  - destruct w as [[r n g e o] cfg outs nx tk tr lg].
    destruct o, r; crank; rewrite <- !app_assoc, drop_app_length; done.
  - destruct w as [[r n g e o] cfg outs nx tk tr lg].
    destruct o, r; crank; rewrite <- !app_assoc, drop_app_length; done.
  - destruct w as [[r n g e o] cfg outs nx tk tr lg].
    crank. unfold ask. cbn. destruct (env_output_create E tk); cbn;
      [destruct (env_output_start E (S tk))|]; cbn;
      rewrite <- !app_assoc, drop_app_length; done.
Qed.

End Logging.

(** ** The handle discipline *)

Section Handles.

Variable E : Env.

Arguments vertical_output_start : simpl never.
Arguments vertical_output_start_video : simpl never.

Lemma released_ok_app held l1 l2 :
  released_ok held (l1 ++ l2) <->
  released_ok held l1 /\ released_ok held l2 /\
  (forall h, EvOutputRelease (Some h) ∈ l1 ->
     Forall (fun e => event_output e <> Some h) l2).
Proof.
  induction l1 as [|e l1 IH]; cbn [app released_ok].
  - split; [|by intros (_ & H & _)].
    intros H. repeat split; [done|]. intros h Hin. by apply elem_of_nil in Hin.
  - rewrite IH. split.
    + intros (He & H1 & H2 & H3). repeat split; [| |done|done|].
      * by destruct (He h H) as [[? ?]%Forall_app _].
      * by destruct (He h H) as [_ ?].
      * intros h [Heq|Hin]%elem_of_cons; [|by apply H3].
        by destruct (He h (eq_sym Heq)) as [[? ?]%Forall_app _].
    + intros ((He & H1) & H2 & H3). repeat split; [| |done|done|].
      * apply Forall_app. split; [by apply He|]. apply H3. subst e. by left.
      * by apply He.
      * intros h Hin. apply H3. by right.
Qed.

Lemma released_ok_split held tr pre h post :
  released_ok held tr ->
  tr = pre ++ EvOutputRelease (Some h) :: post ->
  Forall (fun e => event_output e <> Some h) post /\ held <> Some h.
Proof.
  intros H ->. apply released_ok_app in H as (_ & [H _] & _). by apply H.
Qed.

Lemma released_not_held held tr h :
  released_ok held tr -> EvOutputRelease (Some h) ∈ tr -> held <> Some h.
Proof.
  intros H (pre & post & ->)%list_elem_of_split.
  by destruct (released_ok_split _ _ _ _ _ H eq_refl).
Qed.

Lemma released_ok_none held evs :
  Forall (fun e => is_release e = false) evs -> released_ok held evs.
Proof.
  induction 1 as [|e evs He _ IH]; [done|]. split; [|done].
  intros h ->. done.
Qed.

Lemma released_ok_held h1 h2 evs :
  released_ok h1 evs ->
  (forall h, EvOutputRelease (Some h) ∈ evs -> h2 <> Some h) ->
  released_ok h2 evs.
Proof.
  induction evs as [|e evs IH]; [done|]. intros [He H] Hh. split.
  - intros h ->. split; [by apply (He h)|]. apply Hh. by left.
  - apply IH; [done|]. intros h Hin. apply Hh. by right.
Qed.

(** A run that appends [evs] keeps the discipline when [evs] is made on
    the held output or on outputs allocated by the run, releases
    properly, and passes no null output. *)
Lemma handles_inv_append w w' evs :
  handles_inv w ->
  trace w' = trace w ++ evs ->
  next_output w <= next_output w' ->
  Forall (fun e => forall k, event_output e = Some k ->
            (output (vctx w) = Some k \/ next_output w <= k) /\
            k < next_output w') evs ->
  released_ok (output (vctx w')) evs ->
  (forall k, output (vctx w') = Some k ->
     (output (vctx w) = Some k \/ next_output w <= k) /\ k < next_output w') ->
  Forall (fun e => null_output_call e = false) evs ->
  handles_inv w'.
Proof.
  intros (Ha & Hb & Hc & Hd) Ht Hn H1 H2 H3 H4.
  assert (Hgone : forall h, EvOutputRelease (Some h) ∈ trace w ->
            output (vctx w) <> Some h /\ h < next_output w).
  { intros h Hin. split; [by eapply released_not_held|]. by eapply Ha. }
  unfold handles_inv. rewrite Ht. repeat split.
  - intros e k [Hin|Hin]%elem_of_app Hk.
    + apply (Ha e k) in Hin; [lia|done].
    + by destruct (proj1 (Forall_forall _ _) H1 e Hin k Hk).
  - apply released_ok_app. repeat split; [|done|].
    + eapply released_ok_held; [exact Hb|]. intros h Hin Hh.
      destruct (Hgone h Hin) as [Hne Hlt].
      destruct (H3 h Hh) as [[?|?] _]; [done|lia].
    + intros h Hin. destruct (Hgone h Hin) as [Hne Hlt].
      apply Forall_forall. intros e He Hk.
      destruct (proj1 (Forall_forall _ _) H1 e He h Hk) as [[?|?] _]; [done|lia].
  - intros h Hh. by destruct (H3 h Hh).
  - by apply Forall_app.
Qed.

Lemma handles_inv_same w w' :
  vctx w' = vctx w -> next_output w' = next_output w -> trace w' = trace w ->
  handles_inv w -> handles_inv w'.
Proof. unfold handles_inv. by intros -> -> ->. Qed.

Lemma handles_inv_silent w w' : silent w' = silent w -> handles_inv w -> handles_inv w'.
Proof.
  intros (? & _ & _ & ? & _ & ?)%silent_eq. by apply handles_inv_same.
Qed.

Lemma handles_inv_world0 c : handles_inv (world0 c).
Proof.
  repeat split; try done. intros e k Hin. by apply elem_of_nil in Hin.
Qed.

(** Calls on the output [h], none of them a release. *)
Ltac on_held :=
  repeat first
    [ apply Forall_nil_2
    | apply Forall_cons_2;
      [first [ done
             | by cbn; intros ? [=]
             | by cbn; intros ? [= <-]; split; [left|] ]|] ].

(** No output is released in a concrete list of calls. *)
Ltac no_release := cbn [released_ok]; repeat (split; [by intros ? [=]|]); done.

Lemma stop_handles w :
  vctx_inv w -> handles_inv w -> handles_inv (exec vertical_output_stop w).
Proof.
  intros (Hv1 & _ & _) Hh.
  destruct (is_running (vctx w)) eqn:Hr.
  - destruct (output (vctx w)) as [h|] eqn:Ho;
      [|destruct (Hv1 eq_refl) as [? _]; congruence].
    pose proof Hh as (_ & _ & Hc & _). specialize (Hc h Ho).
    apply (handles_inv_append w _
             [EvOutputSetMedia (Some h) None None; EvOutputStop (Some h)]).
    + done.
    + destruct w as [[r n g e o] cfg outs nx tk tr lg]. cbn in *. subst.
      cbn. by rewrite <- app_assoc.
    + by destruct w as [[r n g e o] cfg outs nx tk tr lg]; cbn in *; subst.
    + assert (Hn : next_output (exec vertical_output_stop w) = next_output w)
        by (by destruct w as [[r n g e o] cfg outs nx tk tr lg]; cbn in *; subst).
      rewrite Hn. on_held.
    + no_release.
    + assert (Hn : next_output (exec vertical_output_stop w) = next_output w)
        by (by destruct w as [[r n g e o] cfg outs nx tk tr lg]; cbn in *; subst).
      assert (Hk : output (vctx (exec vertical_output_stop w)) = Some h)
        by (by destruct w as [[r n g e o] cfg outs nx tk tr lg]; cbn in *; subst).
      rewrite Hn, Hk. intros k [= <-]. split; [by left|done].
    + by repeat constructor.
  - apply (handles_inv_silent w); [by apply stop_idle | done].
Qed.

Lemma deinit_handles w :
  handles_inv w -> handles_inv (exec vertical_output_deinit w).
Proof.
  intros Hh. destruct (output (vctx w)) as [h|] eqn:Ho.
  - pose proof Hh as (_ & _ & Hc & _). specialize (Hc h Ho).
    destruct (deinit_keeps w) as (_ & Hn & _).
    apply (handles_inv_append w _ (events vertical_output_deinit w)).
    + done.
    + apply deinit_trace.
    + by rewrite Hn.
    + rewrite Hn, (deinit_events w h Ho).
      destruct (is_running (vctx w)); cbn [app]; on_held.
    + rewrite deinit_output, (deinit_events w h Ho).
      destruct (is_running (vctx w)); cbn [app released_ok];
        repeat (split; [first [by intros ? [=] | by intros ? [= <-]]|]); done.
    + by rewrite deinit_output.
    + rewrite (deinit_events w h Ho).
      destruct (is_running (vctx w)); by repeat constructor.
  - apply (handles_inv_silent w); [by apply deinit_none | done].
Qed.

Lemma start_handles w :
  handles_inv w -> handles_inv (exec (vertical_output_start E) w).
Proof.
  intros Hh. destruct (output (vctx w)) as [h|] eqn:Ho.
  - pose proof Hh as (_ & _ & Hc & _). specialize (Hc h Ho).
    assert (Hn : next_output (exec (vertical_output_start E) w) = next_output w).
    { by destruct (start_run E w h Ho) as (v & a & r & t & pre & lg & -> & _). }
    destruct (start_keeps E w) as (_ & _ & Hk). rewrite Ho in Hk.
    destruct (start_trace_shape E w h Ho) as (res & v & a & r & msg & Ht & Hres & _).
    assert (Hres1 : Forall (fun e => forall k, event_output e = Some k ->
              (output (vctx w) = Some k \/ next_output w <= k) /\
              k < next_output w) res).
    { eapply Forall_impl; [exact Hres|]. by intros []. }
    assert (Hres2 : Forall (fun e => is_release e = false) res).
    { eapply Forall_impl; [exact Hres|]. by intros []. }
    assert (Hres3 : Forall (fun e => null_output_call e = false) res).
    { eapply Forall_impl; [exact Hres|]. by intros []. }
    eapply (handles_inv_append w); [done|exact Ht|by rewrite Hn| | | |].
    + rewrite Hn. apply Forall_app_2; [destruct (is_running (vctx w)); on_held|].
      apply Forall_app_2; [done|]. destruct (started r); cbn [app]; on_held.
    + apply released_ok_none.
      apply Forall_app_2; [by destruct (is_running (vctx w)); repeat constructor|].
      apply Forall_app_2; [done|]. by destruct (started r); repeat constructor.
    + rewrite Hn, Hk. intros k [= <-]. split; [by left|done].
    + apply Forall_app_2; [by destruct (is_running (vctx w)); repeat constructor|].
      apply Forall_app_2; [done|]. by destruct (started r); repeat constructor.
  - apply (handles_inv_silent w); [by apply start_none | done].
Qed.

Lemma is_supported_handles w :
  handles_inv w -> handles_inv (exec (vertical_output_is_supported E) w).
Proof.
  intros Hh. pose proof Hh as (_ & _ & Hc & _).
  destruct w as [[r n g e o] cfg outs nx tk tr lg].
  cbn [vctx output next_output] in Hc.
  unfold exec, vertical_output_is_supported, obs_output_create, obs_output_start,
    obs_output_stop, obs_output_release, bind, ret. cbn. unfold ask. cbn.
  destruct (env_output_create E tk); cbn.
  - assert (Hprobe : forall ok w1,
      trace w1 = tr ++
        [EvOutputCreate "ndi_output" "NDI Vertical Output" probe_settings (Some nx);
         EvOutputStart (Some nx) ok; EvOutputStop (Some nx);
         EvOutputRelease (Some nx)] ->
      next_output w1 = S nx ->
      output (vctx w1) = o ->
      handles_inv w1).
    { intros ok w1 Ht Hn Ho. eapply handles_inv_append; [exact Hh|exact Ht|..].
      - rewrite Hn. cbn. lia.
      - rewrite Hn. cbn [next_output vctx output].
        repeat (apply Forall_cons_2; [cbn; intros ? [= <-]; split; [by right|lia]|]).
        by apply Forall_nil_2.
      - rewrite Ho. cbn [released_ok].
        repeat (split; [first [by intros ? [=] | intros ? [= <-]]|]); [|done].
        split; [by apply Forall_nil_2|]. intros Hk. specialize (Hc nx Hk). lia.
      - rewrite Hn, Ho. cbn [next_output vctx output]. intros k Hk.
        split; [by left|]. specialize (Hc k Hk). lia.
      - by repeat constructor. }
    destruct (env_output_start E (S tk)); cbn;
      (eapply Hprobe; [cbn; by rewrite <- !app_assoc|done|done]).
  - eapply (handles_inv_append _ _
              [EvOutputCreate "ndi_output" "NDI Vertical Output" probe_settings None]);
      [exact Hh|done|done|..].
    + by repeat constructor.
    + done.
    + cbn [next_output vctx output]. intros k Hk. split; [by left|].
      by specialize (Hc k Hk).
    + by repeat constructor.
Qed.

Lemma init_handles w :
  handles_inv w -> handles_inv (exec (vertical_output_init E) w).
Proof.
  intros Hh. pose proof (deinit_handles w Hh) as Hd.
  pose proof (init_run E w) as Hi. cbn zeta in Hi.
  destruct (deinit_keeps w) as (_ & Hn1 & _).
  pose proof (deinit_output w) as Ho1.
  destruct (negb _ || _).
  - by apply (handles_inv_silent (exec vertical_output_deinit w)).
  - destruct (env_output_create E (tick w)).
    + destruct Hi as (wm & -> & Hv & _ & _ & Hn & Ht).
      apply (handles_inv_silent (exec (vertical_output_start E) wm)); [done|].
      apply start_handles.
      eapply (handles_inv_append (exec vertical_output_deinit w)); [exact Hd|exact Ht|..].
      * rewrite Hn, Hn1. lia.
      * rewrite Hn, Hn1.
        repeat (apply Forall_cons_2; [cbn; intros ? [= <-]; split; [by right|lia]|]).
        by apply Forall_nil_2.
      * no_release.
      * rewrite Hv, Hn, Hn1. cbn [output]. intros k [= <-]. split; [by right|lia].
      * by repeat constructor.
    + apply (handles_inv_silent _ _ Hi).
      eapply (handles_inv_append (exec vertical_output_deinit w)); [exact Hd|done|done|..].
      * by repeat constructor.
      * done.
      * cbn [advance vctx next_output]. rewrite Ho1. done.
      * by repeat constructor.
Qed.

Lemma signal_handles o signal w :
  handles_inv w -> handles_inv (exec (signal_handler_signal o signal) w).
Proof.
  unfold signal_handler_signal. rewrite exec_bind.
  destruct (eval (lookup_output o) w) as [x|]; [|done].
  destruct (run_callbacks_keeps signal (out_signals x) (exec (lookup_output o) w))
    as (Hv & _ & Hn & _ & Ht).
  by apply handles_inv_same.
Qed.

Lemma call_handles c w :
  vctx_inv w -> handles_inv w -> handles_inv (exec (run_call E c) w).
Proof.
  intros Hv Hh. destruct c; cbn [run_call].
  - by apply init_handles.
  - by apply start_handles.
  - by apply stop_handles.
  - by apply deinit_handles.
  - rewrite exec_bind. by apply is_supported_handles.
  - done.
  - by apply signal_handles.
  - done.
Qed.

Lemma reachable_handles w : reachable E w -> handles_inv w.
Proof.
  intros (c & l & ->).
  generalize (inv_world0 c) (handles_inv_world0 c). generalize (world0 c).
  induction l as [|x l IH]; intros w Hv Hw; [done|].
  cbn [run_calls]. rewrite exec_bind.
  apply IH; [by apply call_inv | by apply call_handles].
Qed.

(** X15 (no use after release).  In a reachable state, once an output
    has been released no later call is made on it, not a second release
    either, and the context does not hold it. *)
Theorem no_output_used_after_release w :
  reachable E w ->
  forall pre h post,
    trace w = pre ++ EvOutputRelease (Some h) :: post ->
    Forall (fun e => event_output e <> Some h) post /\
    output (vctx w) <> Some h.
Proof.
  intros (_ & Hb & _)%reachable_handles pre h post Ht.
  by eapply released_ok_split.
Qed.

(** X16 (no call on a null output).  In a reachable state, every call
    that was made on an output passed a non-null output, one the host has
    allocated.  In particular [vertical_output_stop], which does not test
    [vctx.output], never passes null. *)
Theorem no_call_on_null_output w :
  reachable E w ->
  forall e, e ∈ trace w ->
    is_output_event e = true -> is_create e = false ->
    exists h, event_output e = Some h /\ h < next_output w.
Proof.
  intros (Ha & _ & _ & Hd)%reachable_handles e Hin Ho Hc.
  pose proof (proj1 (Forall_forall _ _) Hd e Hin) as Hnull.
  unfold null_output_call in Hnull. rewrite Ho, Hc in Hnull. cbn in Hnull.
  destruct (event_output e) as [h|] eqn:He; [|done].
  exists h. split; [done|]. by eapply Ha.
Qed.

End Handles.

(** ** The properties at concrete hosts *)

(** Closed goals are settled by evaluation. *)
Ltac by_eval := vm_compute; reflexivity.

(** Membership in a computed trace. *)
Ltac in_computed_trace :=
  vm_compute; repeat first [ apply list_elem_of_here | apply list_elem_of_further ].

Lemma reachable_world_busy : reachable host_busy world_busy.
Proof. exists config_on, [CallInit]. by_eval. Qed.

(** C1, as stated, fails: with the canvas API compiled in, no handle from
    the vendor query, and a canvas named exactly "Aitum Vertical" in the
    list, the main-video fallback is consulted all the same when that
    canvas has no video. *)
Lemma canvas_without_video_falls_back :
  let w := world0 config_on in
  eval (get_aitum_vertical_video host_blank_canvas) w = None /\
  HAVE_OBS_CANVAS_API host_blank_canvas = true /\
  (exists c, c ∈ env_canvases host_blank_canvas 2 /\
             canvas_name c = Some "Aitum Vertical") /\
  events (vertical_output_start_video host_blank_canvas) w =
    [EvGetProcHandler true;
     EvProcCall "aitum_vertical_get_video" [("width", CdInt 0); ("height", CdInt 0)] false;
     EvGetCanvases 1; EvCanvasGetName 1; EvCanvasGetRef 1 true; EvCanvasListFree;
     EvCanvasGetVideo 1 None; EvCanvasRelease 1; EvGetVideo 7] /\
  EvGetVideo 7 ∈ events (vertical_output_start host_blank_canvas)
                   (exec (vertical_output_init host_blank_canvas) w).
Proof.
  cbn zeta. split; [by_eval|]. split; [by_eval|]. split.
  - exists canvas_without_video. split; [apply list_elem_of_here | by_eval].
  - split; [by_eval | in_computed_trace].
Qed.

Lemma start_video_tiers_in_order_witness :
  eval (vertical_output_start_video host_vendor) (world0 config_on) = Some 3 /\
  eval (vertical_output_start_video host_canvas) (world0 config_on) = Some 5 /\
  (forall e, e ∈ events (vertical_output_start_video host_canvas) (world0 config_on) ->
     is_main_video_event e = false) /\
  exists v, eval (vertical_output_start_video host_blank_canvas) (world0 config_on) = Some v /\
    last (events (vertical_output_start_video host_blank_canvas) (world0 config_on))
      = Some (EvGetVideo v).
Proof.
  split; [|split; [|split]].
  - destruct (start_video_tiers_in_order host_vendor (world0 config_on))
      as (_ & _ & H & _).
    apply (H 3). by_eval.
  - destruct (start_video_tiers_in_order host_canvas (world0 config_on))
      as (_ & _ & _ & H & _).
    apply (H 5); by_eval.
  - destruct (start_video_tiers_in_order host_canvas (world0 config_on))
      as (_ & _ & _ & H & _).
    apply (H 5); by_eval.
  - destruct (start_video_tiers_in_order host_blank_canvas (world0 config_on))
      as (_ & _ & _ & _ & H).
    destruct H as (v & Hv & Hl & _); [by_eval | right; by_eval |].
    exists v. split; assumption.
Defined.

(** C2, as stated, fails: after a refused start the video and the audio
    source bound for the attempt are still bound to the session. *)
Lemma failed_start_keeps_media_bound :
  let w' := exec (vertical_output_start host_busy) world_busy in
  output (vctx world_busy) = Some 0 /\
  EvOutputStart (Some 0) false ∈ events (vertical_output_start host_busy) world_busy /\
  is_running (vctx w') = false /\
  last_error (vctx w') = "device busy" /\
  (outputs w' !! 0) ≫= out_video = Some 7 /\
  (outputs w' !! 0) ≫= out_audio = Some 9.
Proof.
  cbn zeta. split; [by_eval|]. split; [in_computed_trace|].
  repeat split; by_eval.
Qed.

Lemma start_failure_keeps_error_and_media_witness :
  let w' := exec (vertical_output_start host_busy) world_busy in
  is_running (vctx w') = false /\
  exists x v a pre,
    outputs w' !! 0 = Some x /\
    last_error (vctx w') = QString (out_last_error x) /\
    events (vertical_output_start host_busy) world_busy =
      pre ++ [EvOutputSetMedia (Some 0) (Some v) (Some a);
              EvOutputStart (Some 0) false;
              EvOutputGetLastError (Some 0) (out_last_error x);
              EvOutputStop (Some 0)] /\
    out_active x = false /\
    out_video x = Some v /\ out_audio x = Some a.
Proof.
  apply (start_failure_keeps_error_and_media host_busy world_busy 0).
  - by_eval.
  - eexists. by_eval.
  - in_computed_trace.
Defined.

(** C3, as stated, fails: a refused start whose session left no message
    sets [last_error] to that (empty) text. *)
Lemma failed_start_may_leave_last_error_empty :
  output (vctx world_mute) = Some 0 /\
  EvOutputStart (Some 0) false ∈ events (vertical_output_start host_mute) world_mute /\
  last_error (vctx (exec (vertical_output_start host_mute) world_mute)) = "".
Proof.
  split; [by_eval|]. split; [in_computed_trace | by_eval].
Qed.

Lemma last_error_follows_start_witness :
  last_error (vctx (exec (vertical_output_start host_ok) world_busy)) = "" /\
  last_error (vctx (exec (vertical_output_start host_busy) world_running)) =
    QString ((outputs (exec (vertical_output_start host_busy) world_running) !! 0)
               ≫= out_last_error) /\
  last_error (vctx (exec (vertical_output_start host_ok) (world0 config_on))) = "".
Proof.
  split; [|split].
  - destruct (last_error_follows_start host_ok world_busy) as (_ & H & _).
    apply (H 0); [by_eval | in_computed_trace].
  - destruct (last_error_follows_start host_busy world_running) as (_ & _ & H & _).
    apply (H 0); [by_eval | in_computed_trace].
  - destruct (last_error_follows_start host_ok (world0 config_on)) as (_ & _ & _ & H & _).
    destruct H as [H _]; [by_eval|]. exact H.
Defined.

Lemma deinit_unsubscribes_before_release_witness :
  exists j k, j < k /\ k < 6 /\
    events vertical_output_deinit world_running !! j =
      Some (EvSignalDisconnect (Some 0) "start" on_vertical_output_started) /\
    events vertical_output_deinit world_running !! k =
      Some (EvSignalDisconnect (Some 0) "stop" on_vertical_output_stopped).
Proof.
  pose proof (deinit_unsubscribes_before_release world_running) as H.
  assert (Ho : output (vctx world_running) = Some 0) by by_eval.
  cbn zeta in H. rewrite Ho in H.
  destruct H as (_ & H & _). apply (H 6 (Some 0)). by_eval.
Defined.

Lemma init_behaviour_witness :
  exists res rest,
    events (vertical_output_init host_busy) world_busy =
      events vertical_output_deinit world_busy ++
      EvOutputCreate "ndi_output" "NDI Vertical Output"
        (init_settings (config world_busy)) res :: rest.
Proof.
  destruct (init_behaviour host_busy world_busy reachable_world_busy) as (_ & H & _).
  destruct H as (res & rest & H & _); [by_eval | vm_compute; discriminate |].
  exists res, rest. exact H.
Defined.

Lemma context_invariants_witness :
  let w := exec (run_calls host_ok [CallInit]) (world0 config_on) in
  exists h x, output (vctx w) = Some h /\ outputs w !! h = Some x /\
    is_Some (out_video x) /\ is_Some (out_audio x).
Proof.
  destruct (context_invariants host_ok config_on [CallInit]) as [_ H].
  apply H. by_eval.
Defined.

Lemma stop_when_not_running_witness :
  silent (exec vertical_output_stop world_busy) = silent world_busy /\
  vctx (exec vertical_output_stop world_busy) = vctx world_busy /\
  outputs (exec vertical_output_stop world_busy) = outputs world_busy /\
  events vertical_output_stop world_busy = [].
Proof. apply stop_when_not_running_changes_nothing. by_eval. Defined.

Lemma is_supported_probe_witness :
  vctx (exec (vertical_output_is_supported host_busy) world_running) =
  vctx world_running.
Proof.
  destruct (is_supported_probe host_busy world_running) as (_ & H & _). exact H.
Defined.

(** C9, as stated, fails: [deinit] does not clear [last_error], so the
    context after it is not the zeroed one. *)
Lemma deinit_does_not_clear_last_error :
  reachable host_busy world_busy /\
  last_error (vctx (exec vertical_output_deinit world_busy)) = "device busy" /\
  vctx (exec vertical_output_deinit world_busy) <> vctx0.
Proof.
  split; [exact reachable_world_busy|]. split; [by_eval|].
  vm_compute. discriminate.
Qed.

Lemma deinit_clears_all_but_last_error_witness :
  let w' := exec vertical_output_deinit world_busy in
  output (vctx w') = None /\ is_running (vctx w') = false /\
  ndi_name (vctx w') = "" /\ ndi_groups (vctx w') = "" /\
  last_error (vctx w') = last_error (vctx world_busy).
Proof.
  apply (deinit_clears_all_but_last_error host_busy world_busy reachable_world_busy).
Defined.

Lemma deinit_idempotent_witness :
  silent (exec vertical_output_deinit (world0 config_on)) = silent (world0 config_on) /\
  events vertical_output_deinit (world0 config_on) = [].
Proof.
  destruct (deinit_idempotent (world0 config_on)) as [H _]. apply H. by_eval.
Defined.

(** *** The further properties at concrete hosts *)

Lemma reachable_world_running : reachable host_ok world_running.
Proof. exists config_on, [CallInit]. by_eval. Qed.

Lemma reachable_world_again : reachable host_ok world_again.
Proof. by exists config_on, [CallInit; CallDeinit; CallInit]. Qed.

Lemma stop_running_detaches_then_stops_witness :
  exists x, outputs world_running !! 0 = Some x /\
    events vertical_output_stop world_running =
      [EvOutputSetMedia (Some 0) None None; EvOutputStop (Some 0)].
Proof.
  assert (Hx : exists x, outputs world_running !! 0 = Some x) by (eexists; by_eval).
  destruct Hx as [x Hx]. exists x. split; [exact Hx|].
  pose proof (stop_running_detaches_then_stops world_running 0 x) as H.
  cbn zeta in H. destruct H as [H _]; [by_eval | by_eval | exact Hx | exact H].
Defined.

Lemma start_call_sequence_witness :
  exists res v a b msg,
    events (vertical_output_start host_ok) world_running =
      (if is_running (vctx world_running)
       then [EvOutputSetMedia (Some 0) None None; EvOutputStop (Some 0)] else []) ++
      res ++
      [EvGetAudio a; EvOutputSetMedia (Some 0) (Some v) (Some a);
       EvOutputStart (Some 0) b] ++
      (if b then []
       else [EvOutputGetLastError (Some 0) msg; EvOutputStop (Some 0)]) /\
    Forall (fun e => is_output_event e = false) res /\
    is_running (vctx (exec (vertical_output_start host_ok) world_running)) = b.
Proof. apply (start_call_sequence host_ok world_running 0). by_eval. Defined.

Lemma outputs_held_or_torn_down_witness :
  exists x, outputs world_running !! 0 = Some x /\
    out_released x = false /\
    out_signals x = [("start", on_vertical_output_started);
                     ("stop", on_vertical_output_stopped)] /\
    out_active x = is_running (vctx world_running).
Proof.
  destruct (outputs_held_or_torn_down host_ok world_running reachable_world_running)
    as [H _].
  apply (H 0). by_eval.
Defined.

Lemma held_output_signals_set_enabled_flag_witness :
  enabled_flag_set false world_running
    (exec (signal_handler_signal (Some 0) "stop") world_running).
Proof.
  destruct (held_output_signals_set_enabled_flag host_ok world_running 0
              reachable_world_running) as (_ & H & _); [by_eval | exact H].
Defined.

Lemma signals_of_other_outputs_do_nothing_witness :
  exec (signal_handler_signal (Some 1) "stop") world_running = world_running.
Proof.
  destruct (signals_of_other_outputs_do_nothing host_ok world_running
              reachable_world_running) as [H _].
  apply H. vm_compute. discriminate.
Defined.

Lemma last_error_persists_witness :
  eval vertical_output_last_error
    (exec (run_calls host_busy [CallStop; CallDeinit; CallIsSupported]) world_busy) =
  eval vertical_output_last_error world_busy.
Proof.
  destruct (last_error_persists host_busy [CallStop; CallDeinit; CallIsSupported]
              world_busy) as [_ H]; [reflexivity | exact H].
Defined.

Lemma probe_touches_no_existing_output_witness :
  vctx (exec (vertical_output_is_supported host_busy) world_busy) = vctx world_busy.
Proof.
  pose proof (probe_touches_no_existing_output host_busy world_busy
                reachable_world_busy) as H.
  cbn zeta in H. destruct H as [H _]. exact H.
Defined.

Lemma deinit_detaches_before_release_witness :
  exists pre,
    events vertical_output_deinit world_busy =
      pre ++
      [EvOutputSetMedia (Some 0) None None; EvGetSignalHandler (Some 0);
       EvSignalDisconnect (Some 0) "start" on_vertical_output_started;
       EvSignalDisconnect (Some 0) "stop" on_vertical_output_stopped;
       EvOutputRelease (Some 0)].
Proof.
  pose proof (deinit_detaches_before_release world_busy 0) as H.
  cbn zeta in H. destruct H as (H & _); [by_eval | exact H].
Defined.

Lemma reinit_replaces_the_output_witness :
  output (vctx (exec (vertical_output_init host_busy) world_busy)) <> Some 0.
Proof.
  pose proof (reinit_replaces_the_output host_busy world_busy 0
                reachable_world_busy) as H.
  cbn zeta in H. destruct H as [H _]; [by_eval | exact H].
Defined.

Lemma no_output_used_after_release_witness :
  Forall (fun e => event_output e <> Some 0) (drop 17 (trace world_again)) /\
  output (vctx world_again) <> Some 0.
Proof.
  apply (no_output_used_after_release host_ok world_again reachable_world_again
           (take 16 (trace world_again)) 0 (drop 17 (trace world_again))).
  by_eval.
Defined.

Lemma no_call_on_null_output_witness :
  exists h, event_output (EvOutputStart (Some 0) true) = Some h /\
            h < next_output world_running.
Proof.
  apply (no_call_on_null_output host_ok world_running reachable_world_running);
    [in_computed_trace | reflexivity | reflexivity].
Defined.

(** ** The scenarios of the specification, run *)

(** Scenario A: disabled configuration; [init] creates no output. *)
Example scenario_disabled :
  let w := exec (vertical_output_init host_ok) (world0 config_off) in
  trace w = [] /\ output (vctx w) = None /\ is_running (vctx w) = false.
Proof. repeat split; by_eval. Qed.

(** Scenario B: enabled, creation and start succeed; the shared enabled
    flag follows the confirmed signals. *)
Example scenario_started :
  is_running (vctx world_running) = true /\
  last_error (vctx world_running) = "" /\
  ndi_name (vctx world_running) = "V1" /\ ndi_groups (vctx world_running) = "G" /\
  VerticalOutputEnabled
    (config (exec (signal_handler_signal (Some 0) "stop") world_running)) = false /\
  VerticalOutputEnabled
    (config (exec (run_calls host_ok [HostSignal 0 "stop"; HostSignal 0 "start"])
               world_running)) = true.
Proof. repeat split; by_eval. Qed.

(** Scenario C: the start request is refused with "device busy". *)
Example scenario_device_busy :
  is_running (vctx world_busy) = false /\
  last_error (vctx world_busy) = "device busy" /\
  (outputs world_busy !! 0) ≫= (λ x, Some (out_active x)) = Some false /\
  last (trace world_busy) = Some (EvOutputStop (Some 0)).
Proof. repeat split; by_eval. Qed.

(** Scenario D: no vendor proc, no canvas API; the main program video is
    bound and the output starts. *)
Example scenario_main_video :
  trace world_running =
    [EvOutputCreate "ndi_output" "NDI Vertical Output" (init_settings config_on) (Some 0);
     EvGetSignalHandler (Some 0);
     EvSignalConnect (Some 0) "start" on_vertical_output_started;
     EvSignalConnect (Some 0) "stop" on_vertical_output_stopped;
     EvGetProcHandler true;
     EvProcCall "aitum_vertical_get_video" [("width", CdInt 0); ("height", CdInt 0)] false;
     EvGetVideo 7; EvGetAudio 9;
     EvOutputSetMedia (Some 0) (Some 7) (Some 9);
     EvOutputStart (Some 0) true].
Proof. by_eval. Qed.

(** Restart: [start] while running stops first; one media binding at the
    end. *)
Example scenario_restart :
  events (vertical_output_start host_ok) world_running =
    [EvOutputSetMedia (Some 0) None None; EvOutputStop (Some 0);
     EvGetProcHandler true;
     EvProcCall "aitum_vertical_get_video" [("width", CdInt 0); ("height", CdInt 0)] false;
     EvGetVideo 7; EvGetAudio 9;
     EvOutputSetMedia (Some 0) (Some 7) (Some 9);
     EvOutputStart (Some 0) true].
Proof. by_eval. Qed.
